(** * The message-buffering engine and bounded chat history of the Teams bot

    A shallow embedding of [src/app.py]: the two process-wide dictionaries
    [chat_history] and [message_buffers], the functions that mutate them
    ([append_chat_history], [generate_response], [process_buffered_messages],
    [buffer_message], [fetch_new_messages]) and the [threading.Timer] objects
    that [buffer_message] creates.  The language model, the operator prompt
    and the Graph API client are external collaborators; their answers are
    supplied by a record of functions. *)

From Stdlib Require Import Ascii String QArith Lqa.
From stdpp Require Import gmap strings list pretty.

Open Scope string_scope.
Open Scope list_scope.
Open Scope nat_scope.

(** ** Constants *)

Definition MAX_MESSAGE_HISTORY : nat := 20.
(** Seconds to wait before processing messages. *)
Definition MESSAGE_DELAY : Q := 5.
(** Seconds between polls. *)
Definition POLL_INTERVAL : Q := 10.

(** The newline and tab characters of the Python literals. *)
Definition NL : string := String "010"%char "".
Definition TAB : string := String "009"%char "".

(** ** Data model *)

(** [Literal['me', 'user']]. *)
Inductive user_type_t := Me | User.

Global Instance user_type_t_eq_dec : EqDecision user_type_t.
Proof. solve_decision. Defined.

(** One dictionary stored in a chat's history list. *)
Record entry := mk_entry {
  message_id : option string;
  user_type : user_type_t;
  content : string
}.

Global Instance entry_eq_dec : EqDecision entry.
Proof. solve_decision. Defined.

(** A [threading.Timer] object bound to [process_buffered_messages] with the
    arguments [chat_id, message_id]; [deadline] is the time at which the
    interval given to the constructor runs out. *)
Inductive timer_status := Waiting | Cancelled | Fired.

Record Timer := mk_timer {
  deadline : Q;
  timer_chat_id : string;
  timer_message_id : string;
  status : timer_status
}.

(** A value of [message_buffers]: [{"timer": ..., "messages": [...]}].  The
    timer is a handle into the store of timer objects, [None] as in Python. *)
Record buffer := mk_buffer {
  timer : option nat;
  messages : list string
}.

(** The process state: both dictionaries, the timer objects created so far
    (a handle is an index) and the wall clock in seconds. *)
Record state := mk_state {
  chat_history : gmap string (list entry);
  message_buffers : gmap string buffer;
  timers : list Timer;
  clock : Q
}.

Definition initial_state : state :=
  {| chat_history := ∅; message_buffers := ∅; timers := []; clock := 0 |}.

Definition set_chat_history (f : gmap string (list entry) → gmap string (list entry))
    (s : state) : state :=
  {| chat_history := f (chat_history s); message_buffers := message_buffers s;
     timers := timers s; clock := clock s |}.

Definition set_message_buffers (f : gmap string buffer → gmap string buffer)
    (s : state) : state :=
  {| chat_history := chat_history s; message_buffers := f (message_buffers s);
     timers := timers s; clock := clock s |}.

Definition set_timers (f : list Timer → list Timer) (s : state) : state :=
  {| chat_history := chat_history s; message_buffers := message_buffers s;
     timers := f (timers s); clock := clock s |}.

Definition set_clock (t : Q) (s : state) : state :=
  {| chat_history := chat_history s; message_buffers := message_buffers s;
     timers := timers s; clock := t |}.

(** [user_names = {"chat_id": "first name"}]. *)
Definition user_names : gmap string string := {[ "chat_id" := "first name" ]}.

(** ** External collaborators

    [invoke conversation user_name] is the chain [prompt | llm | parser],
    [input prompt] the operator's answer on the console, [send_message
    chat_id content] the Graph API call.  [None] and [false] stand for a
    raised exception. *)
Record external := mk_external {
  invoke : string → string → option string;
  input : string → option string;
  send_message : string → string → bool
}.

(** ** Computations that mutate the state and may raise *)

Inductive exn := GenerationError | InputError | DeliveryError | KeyError.

Inductive result (A : Type) :=
  | Returned (a : A)
  | Raised (e : exn).
Arguments Returned {A} a.
Arguments Raised {A} e.

(** A raised exception keeps the mutations made before it. *)
Definition M (A : Type) : Type := state → result A * state.

Global Instance M_ret : MRet M := λ A a s, (Returned a, s).
Global Instance M_bind : MBind M := λ A B f m s,
  match m s with
  | (Returned a, s') => f a s'
  | (Raised e, s') => (Raised e, s')
  end.

Definition raise {A} (e : exn) : M A := λ s, (Raised e, s).
Definition get_state : M state := λ s, (Returned s, s).
Definition modify (f : state → state) : M unit := λ s, (Returned tt, f s).

(** ** Pure helpers *)

(** [sep.join(l)]. *)
Fixpoint join (sep : string) (l : list string) : string :=
  match l with
  | [] => ""
  | x :: xs =>
      match xs with
      | [] => x
      | _ :: _ => x +:+ sep +:+ join sep xs
      end
  end.

(** The f-string of [generate_conversation] for one message. *)
Definition format_message (user_name : string) (message : entry) : string :=
  (match user_type message with User => user_name | Me => "Me" end)
    +:+ ": " +:+ content message.

Definition generate_conversation (messages : list entry) (user_name : string) : string :=
  join NL (map (format_message user_name) messages).

(** [user_names.get(chat_id, "User")]. *)
Definition lookup_user_name (chat_id : string) : string :=
  default "User" (user_names !! chat_id).

(** The list stored under [chat_id], [[]] when the key is absent. *)
Definition history_of (s : state) (chat_id : string) : list entry :=
  default [] (chat_history s !! chat_id).

(** [chat_history[chat_id]] on the [defaultdict(list)]: reading a missing
    key inserts an empty list under it. *)
Definition read_chat_history (chat_id : string) : M (list entry) := λ s,
  (Returned (history_of s chat_id),
   set_chat_history (λ m, <[chat_id := history_of s chat_id]> m) s).

(** The two statements of [append_chat_history] on the list itself:
    [pop(0)] when the length has reached the maximum, then [append]. *)
Definition append_entry (h : list entry) (e : entry) : list entry :=
  (if MAX_MESSAGE_HISTORY <=? length h then drop 1 h else h) ++ [e].

(** [any(entry["message_id"] == message_id for entry in history)]. *)
Definition already_processed (message_id0 : string) (h : list entry) : bool :=
  existsb (λ e, bool_decide (message_id e = Some message_id0)) h.

(** [choice and choice.lower() == 'y']. *)
Definition confirms (choice : string) : bool :=
  bool_decide (choice = "y") || bool_decide (choice = "Y").

(** ** The functions of [app.py] *)

Definition append_chat_history (chat_id : string) (user_type0 : user_type_t)
    (content0 : string) (message_id0 : option string) : M unit :=
  h ← read_chat_history chat_id;
  modify (set_chat_history (λ m,
    <[chat_id := append_entry h (mk_entry message_id0 user_type0 content0)]> m)).

Definition generate_response (x : external) (chat_id : string) : M string :=
  let user_name := lookup_user_name chat_id in
  h ← read_chat_history chat_id;
  let conversation := generate_conversation h user_name in
  match invoke x conversation user_name with
  | None => raise GenerationError
  | Some response_text =>
      append_chat_history chat_id Me response_text None;;
      mret response_text
  end.

(** [del message_buffers[chat_id]]. *)
Definition del_message_buffer (chat_id : string) : M unit := λ s,
  match message_buffers s !! chat_id with
  | None => (Raised KeyError, s)
  | Some _ => (Returned tt, set_message_buffers (delete chat_id) s)
  end.

Definition send_prompt : string := "Do you want to send the message? [y/N]" +:+ TAB.

Definition process_buffered_messages (x : external) (chat_id message_id0 : string) : M unit :=
  s ← get_state;
  match message_buffers s !! chat_id with
  | None => mret tt
  | Some b =>
      let buffered_messages := join " " (messages b) in
      append_chat_history chat_id User buffered_messages (Some message_id0);;
      response ← generate_response x chat_id;
      (* the [print] of the response changes nothing here *)
      choice ← (match input x send_prompt with
                | None => raise InputError
                | Some c => mret c
                end);
      (if confirms choice
       then (if send_message x chat_id response then mret tt else raise DeliveryError)
       else mret tt);;
      del_message_buffer chat_id
  end.

(** [Timer.cancel()]: only a timer still waiting is stopped. *)
Definition cancel_timer (tm : Timer) : Timer :=
  match status tm with
  | Waiting => mk_timer (deadline tm) (timer_chat_id tm) (timer_message_id tm) Cancelled
  | _ => tm
  end.

Definition Timer_cancel (h : nat) : M unit :=
  modify (set_timers (alter cancel_timer h)).

(** [threading.Timer(interval, process_buffered_messages, [chat_id,
    message_id, teams_service])] followed by [start()]: the new object gets
    the next free handle. *)
Definition Timer_start (interval : Q) (chat_id message_id0 : string) : M nat := λ s,
  (Returned (length (timers s)),
   set_timers (λ ts, ts ++ [mk_timer (clock s + interval) chat_id message_id0 Waiting]) s).

Definition buffer_message (message message_id0 chat_id : string) : M unit :=
  s ← get_state;
  (if bool_decide (message_buffers s !! chat_id = None)
   then modify (set_message_buffers (λ m, <[chat_id := mk_buffer None []]> m))
   else mret tt);;
  h ← read_chat_history chat_id;
  if already_processed message_id0 h then mret tt
  else
    modify (set_message_buffers
      (alter (λ b, mk_buffer (timer b) (messages b ++ [message])) chat_id));;
    s1 ← get_state;
    (match message_buffers s1 !! chat_id ≫= timer with
     | Some t => Timer_cancel t
     | None => mret tt
     end);;
    t ← Timer_start MESSAGE_DELAY chat_id message_id0;
    modify (set_message_buffers
      (alter (λ b, mk_buffer (Some t) (messages b)) chat_id)).

(** The loop of [fetch_new_messages] over the fetched [(id, content)] pairs. *)
Fixpoint fetch_new_messages (fetched : list (string * string)) (chat_id : string) : M unit :=
  match fetched with
  | [] => mret tt
  | (message_id0, content0) :: rest =>
      buffer_message content0 message_id0 chat_id;;
      fetch_new_messages rest chat_id
  end.

(** ** The timer threads

    A waiting timer whose deadline has passed runs its callback.  In this
    timed model the callback runs to completion at the deadline, before
    anything else happens; the interleaved model further down drops that
    idealisation. *)

Definition is_due (t : Q) (tm : Timer) : bool :=
  match status tm with
  | Waiting => Qle_bool (deadline tm) t
  | _ => false
  end.

(** The due timer with the earliest deadline, the oldest one on a tie. *)
Fixpoint earliest_due (t : Q) (ts : list Timer) (i : nat)
    (best : option (nat * Timer)) : option (nat * Timer) :=
  match ts with
  | [] => best
  | tm :: ts' =>
      earliest_due t ts' (S i)
        (if is_due t tm
         then match best with
              | Some (_, tb) =>
                  if Qle_bool (deadline tb) (deadline tm) then best else Some (i, tm)
              | None => Some (i, tm)
              end
         else best)
  end.

Definition mark_fired (tm : Timer) : Timer :=
  mk_timer (deadline tm) (timer_chat_id tm) (timer_message_id tm) Fired.

(** A record of one callback execution: the timer and how the call ended. *)
Definition firing : Type := nat * result unit.

(** [w h] gives the answers of the collaborators during the callback of
    timer [h]. *)
Definition fire (w : nat → external) (h : nat) (tm : Timer) (s : state) : firing * state :=
  let s1 := set_clock (deadline tm) (set_timers (alter mark_fired h) s) in
  let rs := process_buffered_messages (w h) (timer_chat_id tm) (timer_message_id tm) s1 in
  ((h, fst rs), snd rs).

Fixpoint run_timers (fuel : nat) (w : nat → external) (t : Q) (s : state)
    : list firing * state :=
  match fuel with
  | 0 => ([], s)
  | S fuel' =>
      match earliest_due t (timers s) 0 None with
      | None => ([], s)
      | Some (h, tm) =>
          let fs1 := fire w h tm s in
          let rest := run_timers fuel' w t (snd fs1) in
          (fst fs1 :: fst rest, snd rest)
      end
  end.

(** Let the clock reach [t]: every timer due by then fires.  A callback
    starts no timer, so one round per existing timer is enough. *)
Definition advance_to (w : nat → external) (t : Q) (s : state) : list firing * state :=
  let r := run_timers (length (timers s)) w t s in
  (fst r, set_clock t (snd r)).

(** A message arriving for a chat at a given time. *)
Record arrival := mk_arrival {
  arrival_time : Q;
  arrival_content : string;
  arrival_id : string
}.

(** The poll thread hands each arrival to [buffer_message] at its time. *)
Fixpoint run_arrivals (w : nat → external) (chat_id : string) (arrivals : list arrival)
    (s : state) : list firing * state :=
  match arrivals with
  | [] => ([], s)
  | a :: rest =>
      let r1 := advance_to w (arrival_time a) s in
      let s2 := snd (buffer_message (arrival_content a) (arrival_id a) chat_id (snd r1)) in
      let r3 := run_arrivals w chat_id rest s2 in
      (fst r1 ++ fst r3, snd r3)
  end.

(** The arrivals followed by silence until [t_end]. *)
Definition run_until (w : nat → external) (chat_id : string) (arrivals : list arrival)
    (t_end : Q) (s : state) : list firing * state :=
  let r1 := run_arrivals w chat_id arrivals s in
  let r2 := advance_to w t_end (snd r1) in
  (fst r1 ++ fst r2, snd r2).

(** Each arrival comes no earlier than the one before it and strictly less
    than [d] after it. *)
Fixpoint spaced_within (d : Q) (prev : Q) (arrivals : list arrival) : Prop :=
  match arrivals with
  | [] => True
  | a :: rest =>
      (prev <= arrival_time a)%Q ∧ (arrival_time a < prev + d)%Q
      ∧ spaced_within d (arrival_time a) rest
  end.

Definition quiescent (s : state) : Prop :=
  Forall (λ tm, status tm ≠ Waiting) (timers s).

(** The messages waiting in the buffer of a chat. *)
Definition pending (s : state) (chat_id : string) : list string :=
  from_option messages [] (message_buffers s !! chat_id).

(** ** The poll loop

    [poll_messages] is [while True: fetch_new_messages(...);
    time.sleep(POLL_INTERVAL)].  It is run here for as many rounds as answers
    of [get_recent_messages] are given: the list of (id, content) pairs of
    the response, or [None] when the request raises.  Nothing in [app.py]
    catches that exception.  The timers that come due during the sleep run
    their callbacks. *)
Inductive poll_status := StillPolling | PollRaised.

Fixpoint poll_messages (w : nat → external)
    (answers : list (option (list (string * string)))) (chat_id : string) (s : state)
    : list firing * (poll_status * state) :=
  match answers with
  | [] => ([], (StillPolling, s))
  | None :: _ => ([], (PollRaised, s))
  | Some fetched :: rest =>
      let s1 := snd (fetch_new_messages fetched chat_id s) in
      let r2 := advance_to w (clock s1 + POLL_INTERVAL) s1 in
      let r3 := poll_messages w rest chat_id (snd r2) in
      (fst r2 ++ fst r3, snd r3)
  end.

(** ** The callback as a thread

    [process_buffered_messages] blocks in three places: in the call of the
    language model, at the console prompt and in the HTTP request.  The
    program counter of a callback thread names the call it is blocked in;
    a step runs the thread from one blocking call to the next. *)
Inductive flush_pc :=
  | AtEntry (chat_id message_id0 : string)
  | AtInvoke (chat_id conversation user_name : string)
  | AtInput (chat_id response : string)
  | AtSend (chat_id response : string)
  | Exited (r : result unit).

Definition exit_with (rs : result unit * state) : flush_pc * state :=
  (Exited (fst rs), snd rs).

Definition flush_step (x : external) (pc : flush_pc) (s : state) : flush_pc * state :=
  match pc with
  | AtEntry chat_id message_id0 =>
      match message_buffers s !! chat_id with
      | None => (Exited (Returned tt), s)
      | Some b =>
          let s1 := snd (append_chat_history chat_id User (join " " (messages b))
                           (Some message_id0) s) in
          let user_name := lookup_user_name chat_id in
          (AtInvoke chat_id (generate_conversation (history_of s1 chat_id) user_name) user_name,
           snd (read_chat_history chat_id s1))
      end
  | AtInvoke chat_id conversation user_name =>
      match invoke x conversation user_name with
      | None => (Exited (Raised GenerationError), s)
      | Some response_text =>
          (AtInput chat_id response_text,
           snd (append_chat_history chat_id Me response_text None s))
      end
  | AtInput chat_id response =>
      match input x send_prompt with
      | None => (Exited (Raised InputError), s)
      | Some choice =>
          if confirms choice then (AtSend chat_id response, s)
          else exit_with (del_message_buffer chat_id s)
      end
  | AtSend chat_id response =>
      if send_message x chat_id response
      then exit_with (del_message_buffer chat_id s)
      else (Exited (Raised DeliveryError), s)
  | Exited r => (Exited r, s)
  end.

(** What the two threads of one chat do, in the order in which they are
    scheduled: the poll thread runs one [buffer_message], or the callback
    thread runs to its next blocking call. *)
Inductive action :=
  | Ingest (message message_id0 : string)
  | StepFlush.

Fixpoint run_schedule (x : external) (chat_id : string) (sched : list action)
    (pc : flush_pc) (s : state) : flush_pc * state :=
  match sched with
  | [] => (pc, s)
  | Ingest message message_id0 :: rest =>
      run_schedule x chat_id rest pc (snd (buffer_message message message_id0 chat_id s))
  | StepFlush :: rest =>
      let ps := flush_step x pc s in
      run_schedule x chat_id rest (fst ps) (snd ps)
  end.

(** ** The Graph API client ([services/teams_service.py])

    The HTTP servers are external: [network] gives their answers, [None]
    and [false] standing for the exception of [raise_for_status].  Every
    method returns its result, the object afterwards and the requests it
    made, in order.  [time.time()] is read where the code reads it and is
    passed in; times are exact rationals. *)
Module TeamsService.

Record t := mk {
  client_id : string;
  client_secret : string;
  tenant_id : string;
  access_token : string;
  token_expiry : Q
}.

(** [__init__]. *)
Definition init (client_id0 client_secret0 tenant_id0 : string) : t :=
  mk client_id0 client_secret0 tenant_id0 "" 0.

(** The form posted to the token endpoint. *)
Record token_form := mk_form {
  grant_type : string;
  form_client_id : string;
  form_client_secret : string;
  scope : string
}.

Inductive request :=
  | PostToken (url : string) (data : token_form)
  | PostMessage (url : string) (headers : list (string * string)) (content : string)
  | GetMessages (url : string) (headers : list (string * string)).

(** The token endpoint answers with [access_token] and [expires_in]; the
    messages endpoint with the (id, content) pairs under ["value"], or
    with a document that has no such key. *)
Record network := mk_network {
  token_response : string → token_form → option (string * Z);
  post_response : string → list (string * string) → string → bool;
  get_response : string → list (string * string) → option (option (list (string * string)))
}.

Definition token_url (svc : t) : string :=
  "https://login.microsoftonline.com/" +:+ tenant_id svc +:+ "/oauth2/v2.0/token".

Definition messages_url (chat_id : string) : string :=
  "https://graph.microsoft.com/v1.0/chats/" +:+ chat_id +:+ "/messages".

Definition credentials (svc : t) : token_form :=
  mk_form "client_credentials" (client_id svc) (client_secret svc)
    "https://graph.microsoft.com/.default".

(** [_fetch_access_token]; [now] is the [time.time()] read after the
    response has arrived. *)
Definition fetch_access_token (net : network) (now : Q) (svc : t)
    : option string * t * list request :=
  let url := token_url svc in
  let data := credentials svc in
  match token_response net url data with
  | None => (None, svc, [PostToken url data])
  | Some (token, expires_in) =>
      (Some token,
       mk (client_id svc) (client_secret svc) (tenant_id svc) token
          (now + inject_Z expires_in - 60),
       [PostToken url data])
  end.

(** [get_access_token]; [now_check] is the time read in the condition. *)
Definition get_access_token (net : network) (now_check now_fetch : Q) (svc : t)
    : option string * t * list request :=
  if bool_decide (access_token svc = "") || Qle_bool (token_expiry svc) now_check
  then match fetch_access_token net now_fetch svc with
       | (None, svc', log) => (None, svc', log)
       | (Some _, svc', log) => (Some (access_token svc'), svc', log)
       end
  else (Some (access_token svc), svc, []).

(** [send_message]: [true] when it returns, [false] when it raises. *)
Definition send_message (net : network) (now_check now_fetch : Q)
    (chat_id content : string) (svc : t) : bool * t * list request :=
  let url := messages_url chat_id in
  match get_access_token net now_check now_fetch svc with
  | (None, svc', log) => (false, svc', log)
  | (Some token, svc', log) =>
      let headers := [("Authorization", "Bearer " +:+ token);
                      ("Content-Type", "application/json")] in
      (post_response net url headers content, svc',
       log ++ [PostMessage url headers content])
  end.

(** [get_recent_messages]: the decoded response, [None] when it raises. *)
Definition get_recent_messages (net : network) (now_check now_fetch : Q)
    (chat_id : string) (svc : t)
    : option (option (list (string * string))) * t * list request :=
  let url := messages_url chat_id in
  match get_access_token net now_check now_fetch svc with
  | (None, svc', log) => (None, svc', log)
  | (Some token, svc', log) =>
      let headers := [("Authorization", "Bearer " +:+ token)] in
      (get_response net url headers, svc', log ++ [GetMessages url headers])
  end.

End TeamsService.

(** ** Vocabulary for the statements *)

(** The state with the history list of one chat replaced. *)
Definition with_history (chat_id : string) (h : list entry) (s : state) : state :=
  set_chat_history (λ m, <[chat_id := h]> m) s.

(** The buffer that [buffer_message] works on: the one stored for the chat,
    or the empty one that its first statement creates. *)
Definition buffer_or_new (s : state) (chat_id : string) : buffer :=
  default (mk_buffer None []) (message_buffers s !! chat_id).

(** The timer objects after the [cancel()] of the timer a buffer refers to. *)
Definition timers_after_cancel (b : buffer) (ts : list Timer) : list Timer :=
  match timer b with
  | Some t => alter cancel_timer t ts
  | None => ts
  end.

(** A flushed batch as it is stored, and a stored reply. *)
Definition user_turn (message_id0 : string) (batch : list string) : entry :=
  mk_entry (Some message_id0) User (join " " batch).

Definition reply_turn (response : string) : entry := mk_entry None Me response.

(** A series of [append_chat_history] calls, each on its own chat. *)
Fixpoint append_all (appends : list (string * entry)) : M unit :=
  match appends with
  | [] => mret tt
  | (chat_id, e) :: rest =>
      append_chat_history chat_id (user_type e) (content e) (message_id e);;
      append_all rest
  end.

(** The entries that a series of appends adds to one chat, in call order. *)
Definition entries_for (chat_id : string) (appends : list (string * entry)) : list entry :=
  (filter (λ p, p.1 = chat_id) appends).*2.

(** The last [n] elements of a list. *)
Definition last_n {A} (n : nat) (l : list A) : list A := drop (length l - n) l.

(** A burst: a non-empty series of arrivals, each less than [d] after the
    one before it. *)
Definition spaced (d : Q) (arrivals : list arrival) : Prop :=
  match arrivals with
  | [] => True
  | a :: rest => spaced_within d (arrival_time a) rest
  end.

(** The timer that [buffer_message] starts for an arrival, in a given
    status. *)
Definition timer_of (chat_id : string) (st : timer_status) (a : arrival) : Timer :=
  mk_timer (arrival_time a + MESSAGE_DELAY) chat_id (arrival_id a) st.

(** The state in the middle of a burst that started in [s]: the arrivals
    [done] and then [a] have been buffered for the chat, the timers of
    [done] are cancelled and the timer of [a] has status [st]. *)
Definition burst_state (chat_id : string) (s : state) (done : list arrival) (a : arrival)
    (st : timer_status) (now : Q) : state :=
  mk_state
    (<[chat_id := history_of s chat_id]> (chat_history s))
    (<[chat_id := mk_buffer (Some (length (timers s) + length done))
                    (pending s chat_id ++ (arrival_content <$> done ++ [a]))]>
       (message_buffers s))
    (timers s ++ (timer_of chat_id Cancelled <$> done) ++ [timer_of chat_id st a])
    now.

(** How many timers are due at a given time. *)
Definition due_count (t : Q) (ts : list Timer) : nat :=
  length (filter (λ tm, is_due t tm = true) ts).

(** What happens to the process in the timed model: the poll thread hands
    a message to [buffer_message], or time passes until [t]. *)
Inductive op :=
  | OpBuffer (message message_id0 chat_id : string)
  | OpAdvance (t : Q).

Fixpoint run_ops (w : nat → external) (ops : list op) (s : state) : state :=
  match ops with
  | [] => s
  | OpBuffer message message_id0 chat_id :: rest =>
      run_ops w rest (snd (buffer_message message message_id0 chat_id s))
  | OpAdvance t :: rest => run_ops w rest (snd (advance_to w t s))
  end.


Definition histories_bounded (s : state) : Prop :=
  ∀ c, length (history_of s c) ≤ MAX_MESSAGE_HISTORY.

(** Entries of the user carry the identifier of a message, entries of the
    bot carry none. *)
Definition entry_well_formed (e : entry) : Prop :=
  match user_type e with
  | User => is_Some (message_id e)
  | Me => message_id e = None
  end.

(** Each arrival comes more than [d] after the one before it. *)
Fixpoint apart_from (d : Q) (prev : Q) (arrivals : list arrival) : Prop :=
  match arrivals with
  | [] => True
  | a :: rest => (prev + d < arrival_time a)%Q ∧ apart_from d (arrival_time a) rest
  end.

Definition apart (d : Q) (arrivals : list arrival) : Prop :=
  match arrivals with
  | [] => True
  | a :: rest => apart_from d (arrival_time a) rest
  end.

(** No timer is waiting except possibly the newest one, which is then the
    timer of the chat's buffer. *)
Definition only_newest_waiting (chat_id : string) (s : state) : Prop :=
  quiescent s
  ∨ ∃ ts tm, timers s = ts ++ [tm]
             ∧ Forall (λ tm', status tm' ≠ Waiting) ts
             ∧ message_buffers s !! chat_id ≫= timer = Some (length ts).

(** The number of newline characters in a text. *)
Fixpoint count_newlines (s : string) : nat :=
  match s with
  | EmptyString => 0
  | String a rest =>
      (if bool_decide (a = "010"%char) then 1 else 0) + count_newlines rest
  end.

(** ** Sample data *)

(** Twenty-three appends to one chat and one to another. *)
Definition sample_appends : list (string * entry) :=
  ("19:b", mk_entry None Me "hello")
  :: map (λ i, ("19:a", mk_entry (Some (pretty i)) User ("m" +:+ pretty i))) (seq 0 23).

(** Collaborators that answer: the model replies "ok" to the transcript it
    is expected to get and fails otherwise, the operator confirms, the send
    succeeds. *)
Definition sample_external : external :=
  mk_external
    (λ conversation user_name,
       if bool_decide (conversation = "User: hi" +:+ NL +:+ "Me: yo" ∧ user_name = "User")
       then Some "ok" else None)
    (λ _, Some "y")
    (λ _ _, true).

(** A state in which one chat has a history of two entries. *)
Definition sample_history_state : state :=
  with_history "19:a" [mk_entry (Some "1") User "hi"; mk_entry None Me "yo"] initial_state.

(** A model that raises, and a Graph API that rejects the request. *)
Definition failing_model : external :=
  mk_external (λ _ _, None) (λ _, Some "y") (λ _ _, true).

Definition failing_delivery : external :=
  mk_external (λ _ _, Some "ok") (λ _, Some "y") (λ _ _, false).

Definition working_external : external :=
  mk_external (λ _ _, Some "ok") (λ _, Some "y") (λ _ _, true).

(** The state after the first message of a chat has been buffered. *)
Definition one_buffered : state :=
  snd (buffer_message "hi" "1" "19:a" initial_state).

(** The scenario of two messages one second apart. *)
Definition two_arrivals : list arrival := [mk_arrival 0 "a" "1"; mk_arrival 1 "b" "2"].

(** Two messages twenty seconds apart. *)
Definition two_separate_arrivals : list arrival :=
  [mk_arrival 0 "a" "1"; mk_arrival 20 "b" "2"].

(** A token endpoint that grants an hour and a messages endpoint that
    accepts everything. *)
Definition granting_network : TeamsService.network :=
  TeamsService.mk_network (λ _ _, Some ("tok", 3600%Z)) (λ _ _ _, true)
    (λ _ _, Some (Some [])).

(** ** Statements that are compared with the code *)

(** The buffer of the chat is gone when the callback exits, however it
    exits. *)
Definition flush_always_removes_buffer : Prop :=
  ∀ x chat_id message_id0 s,
    is_Some (message_buffers s !! chat_id) →
    message_buffers (snd (process_buffered_messages x chat_id message_id0 s)) !! chat_id
    = None.

(** A message whose identifier is already in the history of its chat
    leaves the dictionary of buffers and the timers as they are. *)
Definition duplicate_ingest_is_noop : Prop :=
  ∀ message message_id0 chat_id s,
    already_processed message_id0 (history_of s chat_id) = true →
    let s' := snd (buffer_message message message_id0 chat_id s) in
    message_buffers s' = message_buffers s ∧ timers s' = timers s.

(** A chat whose history holds the message 5 and that has no buffer. *)
Definition processed_five : state :=
  with_history "19:a" [mk_entry (Some "5") User "hi"; mk_entry None Me "yo"] initial_state.

(** An ingest scheduled anywhere between the steps of a callback of the
    same chat is either part of the batch that this callback stores or
    waiting in the chat's buffer when the callback has exited.  [before] and
    [after] count the steps of the callback thread scheduled before and
    after the ingest. *)
Definition ingest_during_flush_is_coalesced : Prop :=
  ∀ x chat_id message_id0 s message message_id1 before after r s',
    is_Some (message_buffers s !! chat_id) →
    already_processed message_id1 (history_of s chat_id) = false →
    message_id1 ≠ message_id0 →
    run_schedule x chat_id
      (replicate before StepFlush ++ Ingest message message_id1 :: replicate after StepFlush)
      (AtEntry chat_id message_id0) s = (Exited r, s') →
    user_turn message_id0 (pending s chat_id ++ [message]) ∈ history_of s' chat_id
    ∨ message ∈ pending s' chat_id.

(** The first message of a chat is buffered and its timer has just fired:
    the callback thread is about to run. *)
Definition callback_starting : state :=
  set_timers (alter mark_fired 0) one_buffered.

(** * Properties *)

(** ** The monad and the state updates *)

Lemma bind_run {A B} (m : M A) (f : A → M B) (s : state) :
  (m ≫= f) s =
  match m s with
  | (Returned a, s') => f a s'
  | (Raised e, s') => (Raised e, s')
  end.
Proof. reflexivity. Qed.

Lemma history_of_with_history c h s : history_of (with_history c h s) c = h.
Proof. unfold history_of, with_history; simpl. by rewrite lookup_insert_eq. Qed.

Lemma history_of_with_history_ne c c' h s :
  c ≠ c' → history_of (with_history c h s) c' = history_of s c'.
Proof. intros Hne. unfold history_of, with_history; simpl. by rewrite lookup_insert_ne. Qed.

Lemma with_history_twice c h1 h2 s :
  with_history c h2 (with_history c h1 s) = with_history c h2 s.
Proof. unfold with_history, set_chat_history; simpl. by rewrite insert_insert_eq. Qed.

Lemma read_chat_history_run c s :
  read_chat_history c s = (Returned (history_of s c), with_history c (history_of s c) s).
Proof. reflexivity. Qed.

Lemma append_chat_history_run c u ct mid s :
  append_chat_history c u ct mid s =
  (Returned tt, with_history c (append_entry (history_of s c) (mk_entry mid u ct)) s).
Proof.
  unfold append_chat_history. rewrite bind_run, read_chat_history_run.
  unfold modify. f_equal. apply with_history_twice.
Qed.

(** ** The bounded history *)

Lemma append_entry_length h e :
  length h ≤ MAX_MESSAGE_HISTORY → length (append_entry h e) ≤ MAX_MESSAGE_HISTORY.
Proof.
  unfold append_entry, MAX_MESSAGE_HISTORY. intros Hle.
  destruct (Nat.leb_spec 20 (length h));
    rewrite length_app, ?length_drop; change (length [e]) with 1; lia.
Qed.

Lemma append_entry_last_n h e :
  length h ≤ MAX_MESSAGE_HISTORY →
  append_entry h e = last_n MAX_MESSAGE_HISTORY (h ++ [e]).
Proof.
  unfold append_entry, last_n, MAX_MESSAGE_HISTORY. intros Hle.
  rewrite length_app. change (length [e]) with 1.
  destruct (Nat.leb_spec 20 (length h)) as [Hfull|Hroom].
  - replace (length h + 1 - 20) with 1 by lia.
    rewrite drop_app_le; [done|lia].
  - by replace (length h + 1 - 20) with 0 by lia.
Qed.

Lemma last_n_app {A} n (l k : list A) :
  last_n n (last_n n l ++ k) = last_n n (l ++ k).
Proof.
  unfold last_n. destruct (decide (length l ≤ n)) as [Hle|Hgt].
  - by replace (length l - n) with 0 by lia.
  - rewrite !length_app, length_drop.
    replace (length l - (length l - n) + length k - n) with (length k) by lia.
    replace (length l + length k - n) with ((length l - n) + length k) by lia.
    rewrite <- drop_drop. f_equal. rewrite drop_app_le; [done|lia].
Qed.

Lemma last_n_length {A} n (l : list A) : length (last_n n l) ≤ n.
Proof. unfold last_n. rewrite length_drop. lia. Qed.

Lemma last_n_short {A} n (l : list A) : length l ≤ n → last_n n l = l.
Proof. unfold last_n. intros. by replace (length l - n) with 0 by lia. Qed.

Lemma entries_for_cons_eq c e rest :
  entries_for c ((c, e) :: rest) = e :: entries_for c rest.
Proof. unfold entries_for. by rewrite filter_cons_True. Qed.

Lemma entries_for_cons_ne c c' e rest :
  c' ≠ c → entries_for c ((c', e) :: rest) = entries_for c rest.
Proof. intros. unfold entries_for. by rewrite filter_cons_False. Qed.

Lemma append_all_history appends : ∀ s c,
  length (history_of s c) ≤ MAX_MESSAGE_HISTORY →
  history_of (snd (append_all appends s)) c =
  last_n MAX_MESSAGE_HISTORY (history_of s c ++ entries_for c appends).
Proof.
  induction appends as [|[c' e] rest IH]; intros s c Hle.
  - simpl. unfold entries_for. simpl. rewrite app_nil_r. by rewrite last_n_short.
  - simpl. rewrite bind_run, append_chat_history_run. destruct e as [mid u ct]; simpl.
    destruct (decide (c' = c)) as [->|Hne].
    + rewrite IH; rewrite history_of_with_history.
      * rewrite entries_for_cons_eq, append_entry_last_n by done.
        rewrite last_n_app. by rewrite <- app_assoc.
      * by apply append_entry_length.
    + rewrite IH; rewrite history_of_with_history_ne by done; [|done].
      by rewrite entries_for_cons_ne.
Qed.

(** C4. Starting from a history within the capacity of 20, after any series
    of appends (to any chats) the history of every chat holds at most 20
    entries, and they are exactly the last 20 of the entries it had plus the
    ones appended to it, in order: each append past the capacity removed the
    entry at index 0. *)
Theorem history_bounded_fifo (s : state) (appends : list (string * entry)) (chat_id : string) :
  length (history_of s chat_id) ≤ MAX_MESSAGE_HISTORY →
  let s' := snd (append_all appends s) in
  let inserted := history_of s chat_id ++ entries_for chat_id appends in
  MAX_MESSAGE_HISTORY = 20
  ∧ length (history_of s' chat_id) ≤ MAX_MESSAGE_HISTORY
  ∧ history_of s' chat_id = drop (length inserted - MAX_MESSAGE_HISTORY) inserted
  ∧ (∀ u ct mid,
       history_of (snd (append_chat_history chat_id u ct mid s)) chat_id =
       (if MAX_MESSAGE_HISTORY <=? length (history_of s chat_id)
        then drop 1 (history_of s chat_id) else history_of s chat_id)
       ++ [mk_entry mid u ct]).
Proof.
  intros Hle s' inserted. split; [done|].
  assert (Heq : history_of s' chat_id = last_n MAX_MESSAGE_HISTORY inserted)
    by by apply append_all_history.
  split; [|split; [exact Heq|]].
  - rewrite Heq. apply last_n_length.
  - intros u ct mid. rewrite append_chat_history_run. simpl.
    by rewrite history_of_with_history.
Qed.

Lemma history_bounded_fifo_witness :
  length (history_of initial_state "19:a") ≤ MAX_MESSAGE_HISTORY
  ∧ length (history_of (snd (append_all sample_appends initial_state)) "19:a")
    ≤ MAX_MESSAGE_HISTORY.
Proof.
  split; [vm_compute; lia|].
  apply (history_bounded_fifo initial_state sample_appends "19:a"). vm_compute; lia.
Defined.

Example history_after_sample_appends :
  message_id <$> history_of (snd (append_all sample_appends initial_state)) "19:a"
  = Some <$> (pretty <$> seq 3 20).
Proof. vm_compute. reflexivity. Qed.

(** ** Rendering the conversation *)

Lemma append_assoc (s1 s2 s3 : string) : (s1 +:+ s2) +:+ s3 = s1 +:+ s2 +:+ s3.
Proof.
  induction s1 as [|a s1 IH]; [done|].
  change (String a ((s1 +:+ s2) +:+ s3) = String a (s1 +:+ s2 +:+ s3)).
  by rewrite IH.
Qed.

Lemma join_snoc sep x l y :
  join sep ((x :: l) ++ [y]) = join sep (x :: l) +:+ sep +:+ y.
Proof.
  revert x. induction l as [|z l IH]; intros x.
  - reflexivity.
  - change (join sep ((x :: z :: l) ++ [y]))
      with (x +:+ sep +:+ join sep ((z :: l) ++ [y])).
    rewrite IH.
    change (join sep (x :: z :: l)) with (x +:+ sep +:+ join sep (z :: l)).
    by rewrite !append_assoc.
Qed.

Lemma generate_response_run x c s :
  generate_response x c s =
  match invoke x (generate_conversation (history_of s c) (lookup_user_name c))
          (lookup_user_name c) with
  | None => (Raised GenerationError, with_history c (history_of s c) s)
  | Some r => (Returned r, with_history c (append_entry (history_of s c) (reply_turn r)) s)
  end.
Proof.
  unfold generate_response. rewrite bind_run, read_chat_history_run.
  destruct (invoke x _ _) as [r|]; [|done].
  rewrite bind_run, append_chat_history_run, history_of_with_history.
  by rewrite with_history_twice.
Qed.

(** C8. The transcript is a function of the stored list and the label: the
    empty history gives the empty text, and each further turn adds, after a
    newline, its line at the end (oldest first).  A line is the label, a
    colon and a space, and the content; the label is the given user name for
    a user entry and "Me" for an entry of the bot.  For a chat that has no
    entry in [user_names], [generate_response] hands the model the
    transcript rendered with the label "User", and "User" as the name. *)
Theorem transcript_rendering (x : external) (s : state) (chat_id : string) :
  user_names !! chat_id = None →
  (∀ user_name, generate_conversation [] user_name = "")
  ∧ (∀ user_name m, generate_conversation [m] user_name = format_message user_name m)
  ∧ (∀ user_name m0 h m,
       generate_conversation (m0 :: h ++ [m]) user_name =
       generate_conversation (m0 :: h) user_name +:+ NL +:+ format_message user_name m)
  ∧ (∀ user_name mid ct,
       format_message user_name (mk_entry mid User ct) = user_name +:+ ": " +:+ ct
       ∧ format_message user_name (mk_entry mid Me ct) = "Me: " +:+ ct)
  ∧ generate_response x chat_id s =
    match invoke x (generate_conversation (history_of s chat_id) "User") "User" with
    | None => (Raised GenerationError, with_history chat_id (history_of s chat_id) s)
    | Some r =>
        (Returned r,
         with_history chat_id (append_entry (history_of s chat_id) (reply_turn r)) s)
    end.
Proof.
  intros Hname. repeat split.
  - intros user_name m0 h m. unfold generate_conversation.
    change (m0 :: h ++ [m]) with ((m0 :: h) ++ [m]).
    rewrite map_app. simpl map. apply join_snoc.
  - rewrite generate_response_run. unfold lookup_user_name. by rewrite Hname.
Qed.

Lemma transcript_rendering_witness :
  user_names !! "19:a" = None
  ∧ generate_response sample_external "19:a" sample_history_state =
    (Returned "ok",
     with_history "19:a"
       [mk_entry (Some "1") User "hi"; mk_entry None Me "yo"; mk_entry None Me "ok"]
       sample_history_state).
Proof.
  split; [reflexivity|].
  destruct (transcript_rendering sample_external sample_history_state "19:a" eq_refl)
    as (_ & _ & _ & _ & ->).
  reflexivity.
Defined.

Example transcript_of_sample :
  generate_conversation (history_of sample_history_state "19:a") "User"
  = "User: hi" +:+ NL +:+ "Me: yo".
Proof. reflexivity. Qed.

Example transcript_known_name :
  lookup_user_name "chat_id" = "first name"
  ∧ generate_conversation (history_of sample_history_state "19:a") (lookup_user_name "chat_id")
    = "first name: hi" +:+ NL +:+ "Me: yo".
Proof. split; reflexivity. Qed.

(** ** One execution of the timer callback *)

Lemma process_buffered_messages_idle x c mid s :
  message_buffers s !! c = None →
  process_buffered_messages x c mid s = (Returned tt, s).
Proof.
  intros Hnone. unfold process_buffered_messages.
  rewrite bind_run. unfold get_state. by rewrite Hnone.
Qed.

Lemma message_buffers_with_history c h s :
  message_buffers (with_history c h s) = message_buffers s.
Proof. reflexivity. Qed.

Lemma timers_with_history c h s : timers (with_history c h s) = timers s.
Proof. reflexivity. Qed.

Lemma process_buffered_messages_run x c mid s b :
  message_buffers s !! c = Some b →
  process_buffered_messages x c mid s =
  let h1 := append_entry (history_of s c) (user_turn mid (messages b)) in
  let user_name := lookup_user_name c in
  match invoke x (generate_conversation h1 user_name) user_name with
  | None => (Raised GenerationError, with_history c h1 s)
  | Some r =>
      let s2 := with_history c (append_entry h1 (reply_turn r)) s in
      match input x send_prompt with
      | None => (Raised InputError, s2)
      | Some choice =>
          if confirms choice && negb (send_message x c r)
          then (Raised DeliveryError, s2)
          else (Returned tt, set_message_buffers (delete c) s2)
      end
  end.
Proof.
  intros Hb. unfold process_buffered_messages.
  rewrite bind_run. unfold get_state. rewrite Hb.
  rewrite bind_run, append_chat_history_run.
  rewrite bind_run, generate_response_run, history_of_with_history.
  fold (user_turn mid (messages b)). cbv zeta.
  destruct (invoke x _ _) as [r|]; rewrite with_history_twice; [|done].
  rewrite bind_run. destruct (input x send_prompt) as [choice|]; [|done].
  unfold mret at 1, M_ret at 1. rewrite bind_run.
  assert (Hdel : del_message_buffer c (with_history c (append_entry
      (append_entry (history_of s c) (user_turn mid (messages b))) (reply_turn r)) s)
    = (Returned tt, set_message_buffers (delete c) (with_history c (append_entry
      (append_entry (history_of s c) (user_turn mid (messages b))) (reply_turn r)) s))).
  { unfold del_message_buffer. by rewrite message_buffers_with_history, Hb. }
  destruct (confirms choice); simpl; [|exact Hdel].
  destruct (send_message x c r); simpl; [exact Hdel|done].
Qed.

Lemma run_schedule_step x c rest pc s :
  run_schedule x c (StepFlush :: rest) pc s =
  run_schedule x c rest (fst (flush_step x pc s)) (snd (flush_step x pc s)).
Proof. reflexivity. Qed.

Lemma run_schedule_ingest x c m mid rest pc s :
  run_schedule x c (Ingest m mid :: rest) pc s =
  run_schedule x c rest pc (snd (buffer_message m mid c s)).
Proof. reflexivity. Qed.

Lemma flush_step_entry x c mid s b :
  message_buffers s !! c = Some b →
  flush_step x (AtEntry c mid) s =
  let h1 := append_entry (history_of s c) (user_turn mid (messages b)) in
  (AtInvoke c (generate_conversation h1 (lookup_user_name c)) (lookup_user_name c),
   with_history c h1 s).
Proof.
  intros Hb. unfold flush_step. rewrite Hb, append_chat_history_run.
  cbv zeta. cbn [fst snd]. rewrite read_chat_history_run, history_of_with_history.
  cbn [fst snd]. by rewrite with_history_twice.
Qed.

Lemma flush_step_invoke x c conversation user_name s :
  flush_step x (AtInvoke c conversation user_name) s =
  match invoke x conversation user_name with
  | None => (Exited (Raised GenerationError), s)
  | Some r => (AtInput c r, with_history c (append_entry (history_of s c) (reply_turn r)) s)
  end.
Proof.
  unfold flush_step. destruct (invoke x _ _) as [r|]; [|done].
  by rewrite append_chat_history_run.
Qed.

Lemma flush_step_exit c s b :
  message_buffers s !! c = Some b →
  exit_with (del_message_buffer c s) =
  (Exited (Returned tt), set_message_buffers (delete c) s).
Proof. intros Hb. unfold del_message_buffer. by rewrite Hb. Qed.

(** Running the callback thread from one blocking call to the next, four
    times, is the function [process_buffered_messages]. *)
Lemma flush_steps_complete x c mid s :
  run_schedule x c [StepFlush; StepFlush; StepFlush; StepFlush] (AtEntry c mid) s
  = exit_with (process_buffered_messages x c mid s).
Proof.
  rewrite run_schedule_step.
  destruct (message_buffers s !! c) as [b|] eqn:Hb.
  - rewrite (process_buffered_messages_run x c mid s b Hb),
      (flush_step_entry x c mid s b Hb). cbv zeta. cbn [fst snd].
    rewrite run_schedule_step, flush_step_invoke.
    destruct (invoke x _ _) as [r|]; [|done].
    cbn [fst snd]. rewrite history_of_with_history, with_history_twice.
    rewrite run_schedule_step.
    set (s2 := with_history c _ s).
    assert (Hb2 : message_buffers s2 !! c = Some b) by done.
    unfold flush_step at 1 2.
    destruct (input x send_prompt) as [choice|]; [|done].
    destruct (confirms choice).
    + cbn [fst snd]. rewrite run_schedule_step. unfold flush_step.
      destruct (send_message x c r); cbn [andb negb].
      * by rewrite (flush_step_exit c s2 b Hb2).
      * done.
    + cbn [andb]. by rewrite (flush_step_exit c s2 b Hb2).
  - rewrite process_buffered_messages_idle by done.
    unfold flush_step. by rewrite Hb.
Qed.

(** C3, as stated, fails: when the model raises, the buffer is still there
    after the callback. *)
Lemma flush_keeps_buffer_when_generation_raises : ¬ flush_always_removes_buffer.
Proof.
  intros Hclaim.
  specialize (Hclaim failing_model "19:a" "1" one_buffered).
  assert (Hsome : is_Some (message_buffers one_buffered !! "19:a")) by (vm_compute; eauto).
  specialize (Hclaim Hsome). vm_compute in Hclaim. discriminate.
Qed.

(** C3, amended. A callback that finds a buffer for its chat removes it
    exactly when the callback returns: the model answered, the operator
    answered, and the message was either not confirmed or sent.  When the
    model, the prompt or the send raises, the exception leaves the function
    before the [del] and the dictionary of buffers is as it was. *)
Theorem flush_removes_buffer_on_return (x : external) (chat_id message_id0 : string)
    (s : state) (b : buffer) :
  message_buffers s !! chat_id = Some b →
  let rs := process_buffered_messages x chat_id message_id0 s in
  let h1 := append_entry (history_of s chat_id) (user_turn message_id0 (messages b)) in
  let user_name := lookup_user_name chat_id in
  match fst rs with
  | Returned _ =>
      message_buffers (snd rs) = delete chat_id (message_buffers s)
      ∧ message_buffers (snd rs) !! chat_id = None
  | Raised e =>
      message_buffers (snd rs) = message_buffers s
      ∧ message_buffers (snd rs) !! chat_id = Some b
  end
  ∧ (fst rs = Returned tt ↔
     ∃ r choice,
       invoke x (generate_conversation h1 user_name) user_name = Some r
       ∧ input x send_prompt = Some choice
       ∧ (confirms choice = true → send_message x chat_id r = true)).
Proof.
  intros Hb rs h1 user_name. subst rs.
  rewrite (process_buffered_messages_run x chat_id message_id0 s b Hb). cbv zeta.
  fold h1 user_name.
  destruct (invoke x _ _) as [r|]; simpl.
  2: { split; [done|]. split; [done|]. by intros (? & ? & ? & _). }
  destruct (input x send_prompt) as [choice|]; simpl.
  2: { split; [done|]. split; [done|]. by intros (? & ? & _ & ? & _). }
  destruct (confirms choice) eqn:Hc; simpl.
  - destruct (send_message x chat_id r) eqn:Hs; simpl.
    + split; [split; [done|apply lookup_delete_eq]|].
      split; [|done]. intros _. exists r, choice. by rewrite Hs.
    + split; [done|]. split; [done|].
      intros (r' & ch' & Hr & Hch & Himp). simplify_eq. rewrite Hs in Himp.
      by specialize (Himp Hc).
  - split; [split; [done|apply lookup_delete_eq]|].
    split; [|done]. intros _. exists r, choice. by rewrite Hc.
Qed.

Lemma flush_removes_buffer_on_return_witness :
  message_buffers one_buffered !! "19:a" = Some (mk_buffer (Some 0) ["hi"])
  ∧ message_buffers (snd (process_buffered_messages working_external "19:a" "1"
                            one_buffered)) !! "19:a" = None.
Proof.
  split; [reflexivity|].
  pose proof (flush_removes_buffer_on_return working_external "19:a" "1" one_buffered
                (mk_buffer (Some 0) ["hi"]) eq_refl) as [H _].
  exact (proj2 H).
Defined.

Lemma append_entry_snoc h e :
  ∃ kept, append_entry h e = kept ++ [e] ∧ kept ⊆ h.
Proof.
  unfold append_entry. destruct (MAX_MESSAGE_HISTORY <=? length h).
  - exists (drop 1 h). split; [done|apply subseteq_drop].
  - by exists h.
Qed.

Lemma append_entry_last h e : last (append_entry h e) = Some e.
Proof. destruct (append_entry_snoc h e) as (kept & -> & _). apply last_snoc. Qed.

Lemma elem_of_append_entry h e y : y ∈ append_entry h e → y ∈ h ∨ y = e.
Proof.
  destruct (append_entry_snoc h e) as (kept & -> & Hsub).
  rewrite elem_of_app, list_elem_of_singleton. intros [Hy| ->]; [left; by apply Hsub|by right].
Qed.

(** C6. When the model raises during a callback that found a buffer, the
    callback ends with that exception, and the history of the chat is the
    history before with the batch appended as one user entry: that entry is
    the last one, every entry of the bot in it was there before, and no
    other chat's history changes. *)
Theorem generation_failure_appends_no_reply (x : external) (chat_id message_id0 : string)
    (s : state) (b : buffer) :
  message_buffers s !! chat_id = Some b →
  let batch := user_turn message_id0 (messages b) in
  let h1 := append_entry (history_of s chat_id) batch in
  invoke x (generate_conversation h1 (lookup_user_name chat_id)) (lookup_user_name chat_id)
  = None →
  let rs := process_buffered_messages x chat_id message_id0 s in
  fst rs = Raised GenerationError
  ∧ history_of (snd rs) chat_id = h1
  ∧ last (history_of (snd rs) chat_id) = Some batch
  ∧ (∀ e, e ∈ history_of (snd rs) chat_id → user_type e = Me → e ∈ history_of s chat_id)
  ∧ (∀ c', chat_id ≠ c' → history_of (snd rs) c' = history_of s c').
Proof.
  intros Hb batch h1 Hraise rs. subst rs.
  rewrite (process_buffered_messages_run x chat_id message_id0 s b Hb). cbv zeta.
  fold batch h1. rewrite Hraise. cbn [fst snd].
  rewrite history_of_with_history. repeat split.
  - apply append_entry_last.
  - intros e He Hme. apply elem_of_append_entry in He as [He| ->]; [done|].
    discriminate Hme.
  - intros c' Hne. by apply history_of_with_history_ne.
Qed.

Lemma generation_failure_appends_no_reply_witness :
  message_buffers one_buffered !! "19:a" = Some (mk_buffer (Some 0) ["hi"])
  ∧ invoke failing_model
      (generate_conversation
         (append_entry (history_of one_buffered "19:a") (user_turn "1" ["hi"]))
         (lookup_user_name "19:a"))
      (lookup_user_name "19:a") = None
  ∧ history_of (snd (process_buffered_messages failing_model "19:a" "1" one_buffered))
      "19:a" = [mk_entry (Some "1") User "hi"].
Proof.
  split; [reflexivity|]. split; [reflexivity|].
  pose proof (generation_failure_appends_no_reply failing_model "19:a" "1" one_buffered
                (mk_buffer (Some 0) ["hi"]) eq_refl eq_refl) as (_ & H & _).
  rewrite H. reflexivity.
Defined.

(** C7. In a callback that reaches the send, the thread blocked in
    [send_message] already has the reply as the last entry of the chat's
    history; when the send then raises, the callback ends with that
    exception in the very same state, so the reply stays in the history. *)
Theorem reply_stored_before_delivery (x : external) (chat_id message_id0 : string)
    (s : state) (b : buffer) (r choice : string) :
  message_buffers s !! chat_id = Some b →
  let h1 := append_entry (history_of s chat_id) (user_turn message_id0 (messages b)) in
  let h2 := append_entry h1 (reply_turn r) in
  invoke x (generate_conversation h1 (lookup_user_name chat_id)) (lookup_user_name chat_id)
  = Some r →
  input x send_prompt = Some choice →
  confirms choice = true →
  ∃ s_call,
    run_schedule x chat_id [StepFlush; StepFlush; StepFlush] (AtEntry chat_id message_id0) s
    = (AtSend chat_id r, s_call)
    ∧ history_of s_call chat_id = h2
    ∧ last (history_of s_call chat_id) = Some (reply_turn r)
    ∧ (send_message x chat_id r = false →
       flush_step x (AtSend chat_id r) s_call = (Exited (Raised DeliveryError), s_call)
       ∧ process_buffered_messages x chat_id message_id0 s = (Raised DeliveryError, s_call)).
Proof.
  intros Hb h1 h2 Hr Hin Hyes. exists (with_history chat_id h2 s).
  rewrite history_of_with_history. split; [|split; [done|split]].
  - rewrite run_schedule_step, (flush_step_entry x chat_id message_id0 s b Hb).
    cbv zeta. fold h1. cbn [fst snd].
    rewrite run_schedule_step, flush_step_invoke, Hr. cbn [fst snd].
    rewrite history_of_with_history, with_history_twice. fold h2.
    rewrite run_schedule_step. unfold flush_step at 1 2. by rewrite Hin, Hyes.
  - apply append_entry_last.
  - intros Hfail. split.
    + unfold flush_step. by rewrite Hfail.
    + rewrite (process_buffered_messages_run x chat_id message_id0 s b Hb). cbv zeta.
      fold h1. rewrite Hr. fold h2. by rewrite Hin, Hyes, Hfail.
Qed.

Lemma reply_stored_before_delivery_witness :
  message_buffers one_buffered !! "19:a" = Some (mk_buffer (Some 0) ["hi"])
  ∧ process_buffered_messages failing_delivery "19:a" "1" one_buffered
    = (Raised DeliveryError,
       with_history "19:a" [mk_entry (Some "1") User "hi"; mk_entry None Me "ok"]
         one_buffered).
Proof.
  split; [reflexivity|].
  destruct (reply_stored_before_delivery failing_delivery "19:a" "1" one_buffered
              (mk_buffer (Some 0) ["hi"]) "ok" "y" eq_refl eq_refl eq_refl eq_refl)
    as (s_call & Hrun & _ & _ & Hfail).
  destruct (Hfail eq_refl) as [_ ->].
  injection Hrun as <-. reflexivity.
Defined.

(** ** One call of [buffer_message] *)

Lemma buffer_message_run m mid c s :
  buffer_message m mid c s =
  let b0 := buffer_or_new s c in
  if already_processed mid (history_of s c)
  then (Returned tt,
        mk_state (<[c := history_of s c]> (chat_history s))
          (<[c := b0]> (message_buffers s)) (timers s) (clock s))
  else (Returned tt,
        mk_state (<[c := history_of s c]> (chat_history s))
          (<[c := mk_buffer (Some (length (timers s))) (messages b0 ++ [m])]>
             (message_buffers s))
          (timers_after_cancel b0 (timers s)
           ++ [mk_timer (clock s + MESSAGE_DELAY) c mid Waiting])
          (clock s)).
Proof.
  assert (Hinit : ∀ b0, buffer_or_new s c = b0 →
    (if bool_decide (message_buffers s !! c = None)
     then modify (set_message_buffers (λ mb, <[c := mk_buffer None []]> mb))
     else mret tt) s
    = (Returned tt, set_message_buffers (λ mb, <[c := b0]> mb) s)).
  { intros b0 <-. unfold buffer_or_new.
    destruct (message_buffers s !! c) as [b|] eqn:Hb.
    - rewrite bool_decide_eq_false_2 by done. destruct s as [ch mb ts ck].
      simpl in *. unfold mret, M_ret, set_message_buffers. simpl.
      by rewrite insert_id.
    - by rewrite bool_decide_eq_true_2 by done. }
  cbv zeta. set (b0 := buffer_or_new s c) in *. specialize (Hinit b0 eq_refl).
  unfold buffer_message. rewrite bind_run. unfold get_state.
  rewrite bind_run, Hinit, bind_run, read_chat_history_run.
  replace (history_of (set_message_buffers (λ mb, <[c:=b0]> mb) s) c)
    with (history_of s c) by done.
  destruct (already_processed mid (history_of s c)); [done|].
  destruct s as [ch mb ts ck].
  unfold mbind, M_bind, modify, Timer_start, Timer_cancel, mret, M_ret, with_history,
    set_message_buffers, set_chat_history, set_timers, timers_after_cancel.
  cbn [chat_history message_buffers timers clock fst snd].
  rewrite alter_insert_eq, lookup_insert_eq. cbn [timer messages mbind option_bind].
  clear Hinit.
  destruct (timer b0) as [t|]; unfold modify;
    cbn [chat_history message_buffers timers clock fst snd];
    rewrite alter_insert_eq; cbn [timer messages]; rewrite ?length_alter; done.
Qed.

Lemma messages_buffer_or_new s c : messages (buffer_or_new s c) = pending s c.
Proof. unfold buffer_or_new, pending. by destruct (message_buffers s !! c). Qed.

Lemma buffer_message_fresh m mid c s :
  already_processed mid (history_of s c) = false →
  let s' := snd (buffer_message m mid c s) in
  message_buffers s' !! c = Some (mk_buffer (Some (length (timers s))) (pending s c ++ [m]))
  ∧ timers s' = timers_after_cancel (buffer_or_new s c) (timers s)
                ++ [mk_timer (clock s + MESSAGE_DELAY) c mid Waiting]
  ∧ history_of s' c = history_of s c
  ∧ clock s' = clock s.
Proof.
  intros Hfresh. rewrite buffer_message_run. cbv zeta. rewrite Hfresh. cbn [snd].
  cbn [message_buffers timers clock]. rewrite lookup_insert_eq, messages_buffer_or_new.
  repeat split. unfold history_of at 1. cbn [chat_history]. by rewrite lookup_insert_eq.
Qed.

(** C2, as stated, fails: for a chat without a buffer the duplicate leaves
    a new entry in [message_buffers]. *)
Lemma duplicate_ingest_creates_buffer : ¬ duplicate_ingest_is_noop.
Proof.
  intros Hclaim.
  destruct (Hclaim "hi" "5" "19:a" processed_five eq_refl) as [Hbuffers _].
  apply (f_equal (λ mb : gmap string buffer, mb !! "19:a")) in Hbuffers.
  vm_compute in Hbuffers. discriminate.
Qed.

(** C2, amended. A message whose identifier is already in the history of
    its chat is dropped: no pending list grows, no timer is cancelled or
    created, the buffers of other chats and every history list stay as they
    are.  A buffer that exists for the chat is left unchanged; when the chat
    has none, the empty buffer created by the first statement of
    [buffer_message] remains. *)
Theorem duplicate_ingest_arms_nothing (message message_id0 chat_id : string) (s : state) :
  already_processed message_id0 (history_of s chat_id) = true →
  let rs := buffer_message message message_id0 chat_id s in
  fst rs = Returned tt
  ∧ timers (snd rs) = timers s
  ∧ (∀ c', pending (snd rs) c' = pending s c')
  ∧ (∀ c', history_of (snd rs) c' = history_of s c')
  ∧ (∀ c', chat_id ≠ c' → message_buffers (snd rs) !! c' = message_buffers s !! c')
  ∧ (is_Some (message_buffers s !! chat_id) → message_buffers (snd rs) = message_buffers s)
  ∧ (message_buffers s !! chat_id = None →
     message_buffers (snd rs) = <[chat_id := mk_buffer None []]> (message_buffers s)).
Proof.
  intros Hdup rs. subst rs. rewrite buffer_message_run. cbv zeta. rewrite Hdup.
  cbn [fst snd timers message_buffers]. split; [done|]. split; [done|].
  split; [|split; [|split; [|split]]].
  - intros c'. unfold pending. cbn [message_buffers].
    destruct (decide (chat_id = c')) as [<-|Hne].
    + rewrite lookup_insert_eq. unfold buffer_or_new.
      by destruct (message_buffers s !! chat_id).
    + by rewrite lookup_insert_ne.
  - intros c'. unfold history_of at 1. cbn [chat_history].
    destruct (decide (chat_id = c')) as [<-|Hne].
    + by rewrite lookup_insert_eq.
    + by rewrite lookup_insert_ne.
  - intros c' Hne. by rewrite lookup_insert_ne.
  - intros [b Hb]. unfold buffer_or_new. rewrite Hb. by apply insert_id.
  - intros Hnone. unfold buffer_or_new. by rewrite Hnone.
Qed.

Lemma duplicate_ingest_arms_nothing_witness :
  already_processed "5" (history_of processed_five "19:a") = true
  ∧ timers (snd (buffer_message "hi" "5" "19:a" processed_five)) = [].
Proof.
  split; [reflexivity|].
  apply (duplicate_ingest_arms_nothing "hi" "5" "19:a" processed_five eq_refl).
Defined.

Lemma alter_last {A} (f : A → A) (l : list A) (x : A) (n : nat) :
  n = length l → alter f n (l ++ [x]) = l ++ [f x].
Proof.
  intros ->. rewrite <- (Nat.add_0_r (length l)). by rewrite alter_app_r.
Qed.

Lemma pending_lookup s c b : message_buffers s !! c = Some b → pending s c = messages b.
Proof. intros Hb. unfold pending. by rewrite Hb. Qed.

Lemma batch_in_history_after_flush x c mid s b :
  message_buffers s !! c = Some b →
  user_turn mid (messages b) ∈ history_of (snd (process_buffered_messages x c mid s)) c.
Proof.
  intros Hb. rewrite (process_buffered_messages_run x c mid s b Hb). cbv zeta.
  destruct (append_entry_snoc (history_of s c) (user_turn mid (messages b)))
    as (kept & Hh1 & _).
  assert (Hin2 : ∀ r, user_turn mid (messages b) ∈
      append_entry (append_entry (history_of s c) (user_turn mid (messages b))) r).
  { intros r. rewrite Hh1. unfold append_entry at 1.
    destruct (MAX_MESSAGE_HISTORY <=? length (kept ++ [_])) eqn:Hfull.
    - destruct kept as [|k kept]; [discriminate Hfull|].
      change (drop 1 ((k :: kept) ++ [user_turn mid (messages b)]))
        with (kept ++ [user_turn mid (messages b)]).
      rewrite !elem_of_app, !list_elem_of_singleton. auto.
    - rewrite !elem_of_app, !list_elem_of_singleton. auto. }
  destruct (invoke x _ _) as [r|].
  - destruct (input x send_prompt) as [choice|];
      [destruct (confirms choice && negb (send_message x c r))|];
      cbn [snd]; rewrite ?message_buffers_with_history;
      try (change (history_of (set_message_buffers ?f ?s0) c) with (history_of s0 c));
      rewrite history_of_with_history; apply Hin2.
  - cbn [snd]. rewrite history_of_with_history, Hh1.
    rewrite elem_of_app, list_elem_of_singleton. auto.
Qed.

(** C10. The check of [buffer_message] reads the history only.  For a
    message whose identifier is not in the history of its chat, a second
    [buffer_message] with the same content and identifier passes the check
    again: the pending list ends with the content twice, the timer of the
    first call is the one cancelled by the second, and the callback of the
    second timer stores a user entry whose text is the pending messages,
    the content included twice, joined by spaces. *)
Theorem duplicate_before_flush_buffered_twice (x : external)
    (message message_id0 chat_id : string) (s : state) :
  already_processed message_id0 (history_of s chat_id) = false →
  let s1 := snd (buffer_message message message_id0 chat_id s) in
  let s2 := snd (buffer_message message message_id0 chat_id s1) in
  already_processed message_id0 (history_of s1 chat_id) = false
  ∧ pending s1 chat_id = pending s chat_id ++ [message]
  ∧ pending s2 chat_id = pending s chat_id ++ [message; message]
  ∧ message_buffers s2 !! chat_id ≫= timer = Some (S (length (timers s)))
  ∧ status <$> timers s2 !! length (timers s) = Some Cancelled
  ∧ timers s2 !! S (length (timers s))
    = Some (mk_timer (clock s + MESSAGE_DELAY) chat_id message_id0 Waiting)
  ∧ mk_entry (Some message_id0) User (join " " (pending s chat_id ++ [message; message]))
    ∈ history_of (snd (process_buffered_messages x chat_id message_id0 s2)) chat_id.
Proof.
  intros Hfresh s1 s2.
  destruct (buffer_message_fresh message message_id0 chat_id s Hfresh)
    as (Hb1 & Ht1 & Hh1 & Hc1). fold s1 in Hb1, Ht1, Hh1, Hc1.
  assert (Hfresh1 : already_processed message_id0 (history_of s1 chat_id) = false)
    by by rewrite Hh1.
  destruct (buffer_message_fresh message message_id0 chat_id s1 Hfresh1)
    as (Hb2 & Ht2 & Hh2 & Hc2). fold s2 in Hb2, Ht2, Hh2, Hc2.
  assert (Hp1 : pending s1 chat_id = pending s chat_id ++ [message])
    by by rewrite (pending_lookup _ _ _ Hb1).
  assert (Hlen : length (timers_after_cancel (buffer_or_new s chat_id) (timers s))
                 = length (timers s)).
  { unfold timers_after_cancel. destruct (timer _); [apply length_alter|done]. }
  assert (Hlen1 : length (timers s1) = S (length (timers s))).
  { rewrite Ht1, length_app, Hlen. simpl. lia. }
  assert (Hold : timers_after_cancel (buffer_or_new s1 chat_id) (timers s1)
                 = timers_after_cancel (buffer_or_new s chat_id) (timers s)
                   ++ [mk_timer (clock s + MESSAGE_DELAY) chat_id message_id0 Cancelled]).
  { unfold timers_after_cancel at 1, buffer_or_new at 1. rewrite Hb1. simpl.
    rewrite Ht1. by rewrite (alter_last cancel_timer) by done. }
  rewrite Hp1 in Hb2. rewrite <- app_assoc in Hb2. simpl in Hb2.
  split; [done|]. split; [done|]. split; [by rewrite (pending_lookup _ _ _ Hb2)|].
  split; [by rewrite Hb2, Hlen1|].
  rewrite Ht2, Hold, Hc1. split; [|split].
  - rewrite lookup_app_l by (rewrite length_app, Hlen; simpl; lia).
    by rewrite list_lookup_middle.
  - rewrite list_lookup_middle; [done|]. rewrite length_app, Hlen. simpl. lia.
  - apply (batch_in_history_after_flush x chat_id message_id0 s2 _ Hb2).
Qed.

Lemma duplicate_before_flush_buffered_twice_witness :
  already_processed "7" (history_of processed_five "19:a") = false
  ∧ mk_entry (Some "7") User "again again"
    ∈ history_of
        (snd (process_buffered_messages working_external "19:a" "7"
                (snd (buffer_message "again" "7" "19:a"
                        (snd (buffer_message "again" "7" "19:a" processed_five))))))
        "19:a".
Proof.
  split; [reflexivity|].
  apply (duplicate_before_flush_buffered_twice working_external "again" "7" "19:a"
           processed_five eq_refl).
Defined.

(** ** The timers over time *)

Lemma earliest_due_none t ts : ∀ i best,
  Forall (λ tm, is_due t tm = false) ts → earliest_due t ts i best = best.
Proof.
  induction ts as [|tm ts IH]; intros i best Hall; [done|].
  apply Forall_cons in Hall as [Htm Hts]. simpl. rewrite Htm. by apply IH.
Qed.

Lemma earliest_due_last t ts tm i :
  Forall (λ tm', is_due t tm' = false) ts → is_due t tm = true →
  earliest_due t (ts ++ [tm]) i None = Some (i + length ts, tm).
Proof.
  revert i. induction ts as [|tm' ts IH]; intros i Hall Hdue.
  - simpl. rewrite Hdue. by rewrite Nat.add_0_r.
  - apply Forall_cons in Hall as [Htm Hts]. simpl. rewrite Htm, IH by done.
    do 2 f_equal. lia.
Qed.

Lemma not_waiting_not_due t tm : status tm ≠ Waiting → is_due t tm = false.
Proof. unfold is_due. by destruct (status tm). Qed.

Lemma quiescent_not_due t ts :
  Forall (λ tm, status tm ≠ Waiting) ts → Forall (λ tm, is_due t tm = false) ts.
Proof.
  intros Hall. eapply Forall_impl; [exact Hall|].
  intros tm. apply not_waiting_not_due.
Qed.

Lemma run_timers_idle fuel w t s :
  Forall (λ tm, is_due t tm = false) (timers s) → run_timers fuel w t s = ([], s).
Proof.
  intros Hall. destruct fuel as [|fuel]; [done|]. simpl.
  by rewrite earliest_due_none.
Qed.

Lemma advance_to_idle w t s :
  Forall (λ tm, is_due t tm = false) (timers s) → advance_to w t s = ([], set_clock t s).
Proof. intros Hall. unfold advance_to. by rewrite run_timers_idle. Qed.

Lemma cancel_quiescent ts h :
  Forall (λ tm, status tm ≠ Waiting) ts → alter cancel_timer h ts = ts.
Proof.
  intros Hall. apply list_eq. intros i. rewrite list_lookup_alter.
  destruct (decide (h = i)) as [->|]; [|done].
  destruct (ts !! i) as [tm|] eqn:Htm; [|done]. simpl. f_equal.
  unfold cancel_timer. rewrite Forall_lookup in Hall. specialize (Hall _ _ Htm).
  by destruct (status tm).
Qed.

Lemma timers_process_buffered_messages x c mid s :
  timers (snd (process_buffered_messages x c mid s)) = timers s.
Proof.
  destruct (message_buffers s !! c) as [b|] eqn:Hb.
  - rewrite (process_buffered_messages_run x c mid s b Hb). cbv zeta.
    destruct (invoke x _ _) as [r|]; [|done].
    destruct (input x send_prompt) as [choice|]; [|done].
    by destruct (confirms choice && negb (send_message x c r)).
  - by rewrite process_buffered_messages_idle.
Qed.

Lemma timer_of_not_due t c a :
  (t < arrival_time a + MESSAGE_DELAY)%Q → is_due t (timer_of c Waiting a) = false.
Proof.
  intros Hlt. unfold is_due, timer_of. cbn [status deadline].
  destruct (Qle_bool _ t) eqn:Hle; [|done].
  apply Qle_bool_iff in Hle. by apply Qlt_not_le in Hlt.
Qed.

Lemma timer_of_due t c a :
  (arrival_time a + MESSAGE_DELAY <= t)%Q → is_due t (timer_of c Waiting a) = true.
Proof. intros Hle. unfold is_due, timer_of. cbn [status deadline]. by apply Qle_bool_iff. Qed.

Lemma burst_timers_quiescent c s done :
  quiescent s →
  Forall (λ tm, status tm ≠ Waiting) (timers s ++ (timer_of c Cancelled <$> done)).
Proof.
  intros Hq. apply Forall_app. split; [done|].
  apply Forall_fmap, Forall_forall. by intros a _.
Qed.

(** ** A burst of arrivals *)

Lemma history_of_burst_state c s done a st now c' :
  history_of (burst_state c s done a st now) c' = history_of s c'.
Proof.
  unfold history_of at 1, burst_state. cbn [chat_history].
  destruct (decide (c = c')) as [<-|Hne].
  - by rewrite lookup_insert_eq.
  - by rewrite lookup_insert_ne.
Qed.

Lemma alter_burst_timer f c s done a st :
  alter f (length (timers s) + length done)
    (timers s ++ (timer_of c Cancelled <$> done) ++ [timer_of c st a])
  = timers s ++ (timer_of c Cancelled <$> done) ++ [f (timer_of c st a)].
Proof.
  rewrite alter_app_r. f_equal. apply alter_last. by rewrite length_fmap.
Qed.

Lemma length_burst_timers c s done a st :
  length (timers s ++ (timer_of c Cancelled <$> done) ++ [timer_of c st a])
  = S (length (timers s) + length done).
Proof. rewrite !length_app, length_fmap. simpl. lia. Qed.

Lemma buffer_message_burst_first c s a :
  quiescent s →
  already_processed (arrival_id a) (history_of s c) = false →
  snd (buffer_message (arrival_content a) (arrival_id a) c (set_clock (arrival_time a) s))
  = burst_state c s [] a Waiting (arrival_time a).
Proof.
  intros Hq Hfresh. rewrite buffer_message_run. cbv zeta.
  change (history_of (set_clock (arrival_time a) s) c) with (history_of s c).
  rewrite Hfresh. cbn [snd]. unfold burst_state.
  rewrite messages_buffer_or_new.
  change (pending (set_clock (arrival_time a) s) c) with (pending s c).
  cbn [chat_history message_buffers timers clock set_clock length fmap list_fmap app].
  rewrite Nat.add_0_r. f_equal.
  unfold timers_after_cancel. destruct (timer _); [|done].
  by rewrite cancel_quiescent.
Qed.

Lemma buffer_message_burst_next c s done a a' :
  already_processed (arrival_id a') (history_of s c) = false →
  snd (buffer_message (arrival_content a') (arrival_id a') c
         (burst_state c s done a Waiting (arrival_time a')))
  = burst_state c s (done ++ [a]) a' Waiting (arrival_time a').
Proof.
  intros Hfresh. rewrite buffer_message_run. cbv zeta.
  rewrite history_of_burst_state, Hfresh. cbn [snd].
  unfold buffer_or_new, timers_after_cancel.
  unfold burst_state at 1 2 3 4 5 6.
  cbn [chat_history message_buffers timers clock].
  rewrite lookup_insert_eq. cbn [default from_option id timer messages].
  rewrite !insert_insert_eq, length_burst_timers, alter_burst_timer.
  unfold burst_state. f_equal.
  - f_equal. f_equal.
    + f_equal. rewrite length_app. simpl. lia.
    + rewrite !fmap_app. simpl. by rewrite <- !app_assoc.
  - rewrite !fmap_app. simpl. by rewrite <- !app_assoc.
Qed.

Lemma advance_to_burst_waiting w c s done a now t :
  quiescent s →
  (t < arrival_time a + MESSAGE_DELAY)%Q →
  advance_to w t (burst_state c s done a Waiting now)
  = ([], burst_state c s done a Waiting t).
Proof.
  intros Hq Hlt. rewrite advance_to_idle; [done|].
  unfold burst_state. cbn [timers]. rewrite app_assoc. apply Forall_app. split.
  - apply quiescent_not_due. by apply burst_timers_quiescent.
  - apply Forall_singleton. by apply timer_of_not_due.
Qed.

Lemma run_timers_burst_fire fuel w c s done a now t_end :
  quiescent s →
  (arrival_time a + MESSAGE_DELAY <= t_end)%Q →
  run_timers (S fuel) w t_end (burst_state c s done a Waiting now)
  = let h := length (timers s) + length done in
    let pr := process_buffered_messages (w h) c (arrival_id a)
                (burst_state c s done a Fired (arrival_time a + MESSAGE_DELAY)) in
    ([(h, fst pr)], snd pr).
Proof.
  intros Hq Hle. cbv zeta. cbn [run_timers].
  unfold burst_state at 1. cbn [timers].
  rewrite app_assoc, earliest_due_last.
  2: { apply quiescent_not_due. by apply burst_timers_quiescent. }
  2: { by apply timer_of_due. }
  rewrite length_app, length_fmap, Nat.add_0_l.
  unfold fire. cbn [fst snd].
  assert (Hfire : set_clock (deadline (timer_of c Waiting a))
            (set_timers (alter mark_fired (length (timers s) + length done))
               (burst_state c s done a Waiting now))
          = burst_state c s done a Fired (arrival_time a + MESSAGE_DELAY)).
  { unfold burst_state, set_clock, set_timers.
    cbn [chat_history message_buffers timers clock]. by rewrite alter_burst_timer. }
  rewrite Hfire. cbn [timer_chat_id timer_message_id timer_of].
  rewrite run_timers_idle; [done|].
  rewrite timers_process_buffered_messages. unfold burst_state. cbn [timers].
  rewrite app_assoc. apply Forall_app. split.
  - apply quiescent_not_due. by apply burst_timers_quiescent.
  - apply Forall_singleton. by apply not_waiting_not_due.
Qed.

Lemma advance_to_burst_fire w c s done a now t_end :
  quiescent s →
  (arrival_time a + MESSAGE_DELAY <= t_end)%Q →
  advance_to w t_end (burst_state c s done a Waiting now)
  = let h := length (timers s) + length done in
    let pr := process_buffered_messages (w h) c (arrival_id a)
                (burst_state c s done a Fired (arrival_time a + MESSAGE_DELAY)) in
    ([(h, fst pr)], set_clock t_end (snd pr)).
Proof.
  intros Hq Hle. unfold advance_to.
  replace (length (timers (burst_state c s done a Waiting now)))
    with (S (length (timers s) + length done))
    by (symmetry; apply length_burst_timers).
  by rewrite run_timers_burst_fire.
Qed.

Lemma run_arrivals_accumulating w c s :
  quiescent s →
  ∀ rest done a,
    spaced_within MESSAGE_DELAY (arrival_time a) rest →
    (∀ a', a' ∈ rest → already_processed (arrival_id a') (history_of s c) = false) →
    ∃ done' a',
      done ++ a :: rest = done' ++ [a']
      ∧ run_arrivals w c rest (burst_state c s done a Waiting (arrival_time a))
        = ([], burst_state c s done' a' Waiting (arrival_time a')).
Proof.
  intros Hq. induction rest as [|a1 rest IH]; intros done a Hspaced Hfresh.
  - by exists done, a.
  - destruct Hspaced as (_ & Hlt & Hspaced).
    destruct (IH (done ++ [a]) a1 Hspaced) as (done' & a' & Heq & Hrun).
    { intros a2 Ha2. apply Hfresh. by right. }
    exists done', a'. split; [by rewrite <- Heq, <- app_assoc|].
    cbn [run_arrivals]. rewrite advance_to_burst_waiting by done. cbn [fst snd].
    rewrite buffer_message_burst_next by (apply Hfresh; by left).
    by rewrite Hrun.
Qed.

(** A burst on a chat, started when no timer is waiting, and followed by
    silence until the last timer is due: nothing fires during the burst,
    and the one callback that runs afterwards is that of the last timer, on
    the buffer holding every content of the burst. *)
Lemma burst_run w c s prefix final t_end :
  quiescent s →
  (∀ a, a ∈ prefix ++ [final] → already_processed (arrival_id a) (history_of s c) = false) →
  spaced MESSAGE_DELAY (prefix ++ [final]) →
  (arrival_time final + MESSAGE_DELAY <= t_end)%Q →
  fst (run_arrivals w c (prefix ++ [final]) s) = []
  ∧ snd (run_arrivals w c (prefix ++ [final]) s)
    = burst_state c s prefix final Waiting (arrival_time final)
  ∧ run_until w c (prefix ++ [final]) t_end s
    = let h := length (timers s) + length prefix in
      let pr := process_buffered_messages (w h) c (arrival_id final)
                  (burst_state c s prefix final Fired (arrival_time final + MESSAGE_DELAY)) in
      ([(h, fst pr)], set_clock t_end (snd pr)).
Proof.
  intros Hq Hfresh Hspaced Hend.
  destruct (prefix ++ [final]) as [|a rest] eqn:Harr.
  { by destruct prefix. }
  assert (Hfirst : run_arrivals w c (a :: rest) s
    = run_arrivals w c rest (burst_state c s [] a Waiting (arrival_time a))).
  { cbn [run_arrivals]. rewrite advance_to_idle by by apply quiescent_not_due.
    cbn [fst snd]. rewrite buffer_message_burst_first; [|done|apply Hfresh; by left].
    by destruct (run_arrivals w c rest _). }
  destruct (run_arrivals_accumulating w c s Hq rest [] a Hspaced) as (done' & a' & Heq & Hrun).
  { intros a2 Ha2. apply Hfresh. by right. }
  simpl in Heq. rewrite Heq in Harr. apply app_inj_tail in Harr as [-> ->].
  assert (Hacc : run_arrivals w c (a :: rest) s
                 = ([], burst_state c s done' a' Waiting (arrival_time a')))
    by by rewrite Hfirst.
  split; [by rewrite Hacc|]. split; [by rewrite Hacc|].
  unfold run_until. rewrite Hacc. cbn [fst snd].
  by rewrite advance_to_burst_fire.
Qed.

Lemma burst_state_buffer c s done a st now :
  message_buffers (burst_state c s done a st now) !! c
  = Some (mk_buffer (Some (length (timers s) + length done))
            (pending s c ++ (arrival_content <$> done ++ [a]))).
Proof. unfold burst_state. cbn [message_buffers]. apply lookup_insert_eq. Qed.

Lemma history_of_set_message_buffers f s c :
  history_of (set_message_buffers f s) c = history_of s c.
Proof. reflexivity. Qed.

Lemma history_of_set_clock t s c : history_of (set_clock t s) c = history_of s c.
Proof. reflexivity. Qed.

(** The history after a callback that found a buffer: the batch appended,
    and the reply after it when the model returned one. *)
Lemma flush_history_cases x c mid s b :
  message_buffers s !! c = Some b →
  let s' := snd (process_buffered_messages x c mid s) in
  let h1 := append_entry (history_of s c) (user_turn mid (messages b)) in
  (history_of s' c = h1 ∨ ∃ reply, history_of s' c = append_entry h1 (reply_turn reply))
  ∧ (∀ c', c ≠ c' → history_of s' c' = history_of s c').
Proof.
  intros Hb. cbv zeta. rewrite (process_buffered_messages_run x c mid s b Hb). cbv zeta.
  destruct (invoke x _ _) as [r|].
  - destruct (input x send_prompt) as [choice|];
      [destruct (confirms choice && negb (send_message x c r))|];
      cbn [snd]; rewrite ?history_of_set_message_buffers, history_of_with_history;
      (split; [right; by exists r|]); intros c' Hne;
      rewrite ?history_of_set_message_buffers; by apply history_of_with_history_ne.
  - cbn [snd]. rewrite history_of_with_history. split; [by left|].
    intros c' Hne. by apply history_of_with_history_ne.
Qed.

Lemma already_processed_false mid h :
  already_processed mid h = false ↔ ∀ e, e ∈ h → message_id e ≠ Some mid.
Proof.
  unfold already_processed. induction h as [|e h IH]; simpl.
  - split; [|done]. intros _ e He. by apply elem_of_nil in He.
  - rewrite orb_false_iff, IH, bool_decide_eq_false. split.
    + intros [He Hh] e' [->|He']%elem_of_cons; [done|by apply Hh].
    + intros Hall. split; [apply Hall; by left|].
      intros e' He'. apply Hall. by right.
Qed.

(** C1. Take a chat with nothing pending and no timer waiting, and a
    non-empty series of messages for it, none already in its history, each
    arriving less than [MESSAGE_DELAY] = 5 seconds after the one before.
    No callback runs during the series.  Once 5 seconds have passed after
    the last arrival exactly one callback has run, that of the timer started
    for the last message; the user entry it appended holds all contents in
    arrival order joined by single spaces; every timer started for an
    earlier message is cancelled, and no timer is left waiting. *)
Theorem burst_flushes_once (w : nat → external) (chat_id : string) (s : state)
    (prefix : list arrival) (final : arrival) (t_end : Q) :
  quiescent s →
  pending s chat_id = [] →
  (∀ a, a ∈ prefix ++ [final] →
        already_processed (arrival_id a) (history_of s chat_id) = false) →
  spaced MESSAGE_DELAY (prefix ++ [final]) →
  (arrival_time final + MESSAGE_DELAY <= t_end)%Q →
  let arrivals := prefix ++ [final] in
  let rs := run_until w chat_id arrivals t_end s in
  let h := length (timers s) + length prefix in
  let merged := join " " (arrival_content <$> arrivals) in
  let h1 := append_entry (history_of s chat_id)
              (mk_entry (Some (arrival_id final)) User merged) in
  MESSAGE_DELAY = 5%Q
  ∧ fst (run_arrivals w chat_id arrivals s) = []
  ∧ (∃ r, fst rs = [(h, r)])
  ∧ (history_of (snd rs) chat_id = h1
     ∨ ∃ reply, history_of (snd rs) chat_id = append_entry h1 (reply_turn reply))
  ∧ (∀ i a, prefix !! i = Some a →
       timers (snd rs) !! (length (timers s) + i) = Some (timer_of chat_id Cancelled a))
  ∧ timers (snd rs) !! h = Some (timer_of chat_id Fired final)
  ∧ length (timers (snd rs)) = S h
  ∧ quiescent (snd rs).
Proof.
  intros Hq Hpending Hfresh Hspaced Hend arrivals rs h merged h1.
  destruct (burst_run w chat_id s prefix final t_end Hq Hfresh Hspaced Hend)
    as (Hquiet & _ & Hrun).
  cbv zeta in Hrun. fold arrivals rs h in Hrun.
  set (s_fire := burst_state chat_id s prefix final Fired
                   (arrival_time final + MESSAGE_DELAY)) in Hrun.
  pose proof (burst_state_buffer chat_id s prefix final Fired
                (arrival_time final + MESSAGE_DELAY)) as Hb.
  fold s_fire in Hb. rewrite Hpending, app_nil_l in Hb.
  assert (Htimers : timers (snd rs)
    = timers s ++ (timer_of chat_id Cancelled <$> prefix) ++ [timer_of chat_id Fired final]).
  { rewrite Hrun. cbn [snd]. change (timers (set_clock t_end ?s0)) with (timers s0).
    by rewrite timers_process_buffered_messages. }
  split; [done|]. split; [done|]. split; [rewrite Hrun; eauto|].
  split; [|split; [|split; [|split]]].
  - rewrite Hrun. cbn [snd]. rewrite history_of_set_clock.
    destruct (flush_history_cases (w h) chat_id (arrival_id final) s_fire _ Hb) as [Hh _].
    unfold s_fire in Hh at 2 4. rewrite history_of_burst_state in Hh. exact Hh.
  - intros i a Hi. rewrite Htimers, lookup_app_r by lia.
    replace (length (timers s) + i - length (timers s)) with i by lia.
    rewrite lookup_app_l by (rewrite length_fmap; by eapply lookup_lt_Some).
    by rewrite list_lookup_fmap, Hi.
  - rewrite Htimers, lookup_app_r by (unfold h; lia).
    replace (h - length (timers s)) with (length prefix) by (unfold h; lia).
    by rewrite list_lookup_middle by by rewrite length_fmap.
  - rewrite Htimers. apply length_burst_timers.
  - unfold quiescent. rewrite Htimers, app_assoc. apply Forall_app. split.
    + by apply burst_timers_quiescent.
    + by apply Forall_singleton.
Qed.

Lemma burst_flushes_once_witness :
  quiescent initial_state
  ∧ spaced MESSAGE_DELAY two_arrivals
  ∧ ∃ r, fst (run_until (λ _, working_external) "19:a" two_arrivals 6 initial_state)
         = [(1, r)].
Proof.
  assert (Hq : quiescent initial_state) by apply Forall_nil_2.
  assert (Hs : spaced MESSAGE_DELAY two_arrivals).
  { simpl. split; [|split; [|exact I]]; unfold Qle, Qlt; simpl; lia. }
  split; [exact Hq|]. split; [exact Hs|].
  assert (Hend : (1 + MESSAGE_DELAY <= 6)%Q) by (unfold Qle; simpl; lia).
  apply (burst_flushes_once (λ _, working_external) "19:a" initial_state
           [mk_arrival 0 "a" "1"] (mk_arrival 1 "b" "2") 6 Hq eq_refl
           (λ a _, eq_refl) Hs Hend).
Defined.

Example two_arrivals_one_flush :
  let rs := run_until (λ _, working_external) "19:a" two_arrivals 6 initial_state in
  fst rs = [(1, Returned tt)]
  ∧ history_of (snd rs) "19:a" = [mk_entry (Some "2") User "a b"; mk_entry None Me "ok"]
  ∧ message_buffers (snd rs) !! "19:a" = None
  ∧ status <$> timers (snd rs) = [Cancelled; Fired].
Proof. vm_compute. repeat split. Qed.

(** C5. In the setting of a burst (no timer waiting at its start, no
    message of it already in the history, each arrival less than 5 seconds
    after the one before, then silence), the callback appends one user entry
    for the batch and its identifier is that of the last arrival.  Every
    entry of the chat's history afterwards is an entry that was there
    before, that user entry, or a reply of the bot without identifier; so
    the identifier of an earlier arrival that differs from the last one is
    still not found by the check, and the histories of other chats are
    unchanged. *)
Theorem batch_records_last_id_only (w : nat → external) (chat_id : string) (s : state)
    (prefix : list arrival) (final : arrival) (t_end : Q) :
  quiescent s →
  (∀ a, a ∈ prefix ++ [final] →
        already_processed (arrival_id a) (history_of s chat_id) = false) →
  spaced MESSAGE_DELAY (prefix ++ [final]) →
  (arrival_time final + MESSAGE_DELAY <= t_end)%Q →
  let rs := run_until w chat_id (prefix ++ [final]) t_end s in
  let batch := user_turn (arrival_id final)
                 (pending s chat_id ++ (arrival_content <$> prefix ++ [final])) in
  batch ∈ history_of (snd rs) chat_id
  ∧ message_id batch = Some (arrival_id final)
  ∧ (∀ e, e ∈ history_of (snd rs) chat_id →
       e ∈ history_of s chat_id ∨ e = batch ∨ (user_type e = Me ∧ message_id e = None))
  ∧ (∀ a, a ∈ prefix → arrival_id a ≠ arrival_id final →
       already_processed (arrival_id a) (history_of (snd rs) chat_id) = false)
  ∧ (∀ c', chat_id ≠ c' → history_of (snd rs) c' = history_of s c').
Proof.
  intros Hq Hfresh Hspaced Hend rs batch.
  destruct (burst_run w chat_id s prefix final t_end Hq Hfresh Hspaced Hend)
    as (_ & _ & Hrun).
  cbv zeta in Hrun. fold rs in Hrun.
  set (h := length (timers s) + length prefix) in Hrun.
  set (s_fire := burst_state chat_id s prefix final Fired
                   (arrival_time final + MESSAGE_DELAY)) in Hrun.
  pose proof (burst_state_buffer chat_id s prefix final Fired
                (arrival_time final + MESSAGE_DELAY)) as Hb.
  fold s_fire h in Hb.
  assert (Hhist : ∀ c', history_of (snd rs) c'
    = history_of (snd (process_buffered_messages (w h) chat_id (arrival_id final) s_fire)) c').
  { intros c'. by rewrite Hrun. }
  destruct (flush_history_cases (w h) chat_id (arrival_id final) s_fire _ Hb)
    as [Hcases Hother].
  cbn [messages] in Hcases. fold batch in Hcases.
  unfold s_fire in Hcases at 2 4. rewrite history_of_burst_state in Hcases.
  assert (Hin : ∀ e, e ∈ history_of (snd rs) chat_id →
    e ∈ history_of s chat_id ∨ e = batch ∨ (user_type e = Me ∧ message_id e = None)).
  { intros e. rewrite Hhist. destruct Hcases as [->|[reply ->]].
    - intros [He| ->]%elem_of_append_entry; auto.
    - intros [[He| ->]%elem_of_append_entry| ->]%elem_of_append_entry; auto. }
  split; [|split; [done|split; [exact Hin|split]]].
  - rewrite Hhist.
    apply (batch_in_history_after_flush (w h) chat_id (arrival_id final) s_fire _ Hb).
  - intros a Ha Hne. apply already_processed_false. intros e He.
    destruct (Hin e He) as [Hold|[->|[_ Hnone]]].
    + assert (Hf : already_processed (arrival_id a) (history_of s chat_id) = false).
      { apply Hfresh. apply elem_of_app. by left. }
      rewrite already_processed_false in Hf. by apply Hf.
    + simpl. intros [= Heq]. by apply Hne.
    + by rewrite Hnone.
  - intros c' Hne. rewrite Hhist, Hother by done. apply history_of_burst_state.
Qed.

Lemma batch_records_last_id_only_witness :
  quiescent initial_state
  ∧ spaced MESSAGE_DELAY two_arrivals
  ∧ mk_entry (Some "2") User "a b"
    ∈ history_of (snd (run_until (λ _, working_external) "19:a" two_arrivals 6 initial_state))
        "19:a".
Proof.
  assert (Hq : quiescent initial_state) by apply Forall_nil_2.
  assert (Hs : spaced MESSAGE_DELAY two_arrivals).
  { simpl. split; [|split; [|exact I]]; unfold Qle, Qlt; simpl; lia. }
  split; [exact Hq|]. split; [exact Hs|].
  assert (Hend : (1 + MESSAGE_DELAY <= 6)%Q) by (unfold Qle; simpl; lia).
  apply (batch_records_last_id_only (λ _, working_external) "19:a" initial_state
           [mk_arrival 0 "a" "1"] (mk_arrival 1 "b" "2") 6 Hq (λ a _, eq_refl) Hs Hend).
Defined.

(** ** The poll thread and a callback thread on the same chat *)

Lemma flush_history_elements x c mid s b e :
  message_buffers s !! c = Some b →
  e ∈ history_of (snd (process_buffered_messages x c mid s)) c →
  e ∈ history_of s c ∨ e = user_turn mid (messages b)
  ∨ (user_type e = Me ∧ message_id e = None).
Proof.
  intros Hb. destruct (flush_history_cases x c mid s b Hb) as [[->|[reply ->]] _].
  - intros [He| ->]%elem_of_append_entry; auto.
  - intros [[He| ->]%elem_of_append_entry| ->]%elem_of_append_entry; auto.
Qed.

Lemma flush_buffer_cases x c mid s b :
  message_buffers s !! c = Some b →
  let rs := process_buffered_messages x c mid s in
  (fst rs = Returned tt ∧ message_buffers (snd rs) !! c = None)
  ∨ ((∃ e, fst rs = Raised e) ∧ message_buffers (snd rs) !! c = Some b).
Proof.
  intros Hb. cbv zeta. rewrite (process_buffered_messages_run x c mid s b Hb). cbv zeta.
  destruct (invoke x _ _) as [r|]; [|right; eauto].
  destruct (input x send_prompt) as [choice|]; [|right; eauto].
  destruct (confirms choice && negb (send_message x c r)); [right; eauto|left].
  split; [done|]. cbn [snd message_buffers set_message_buffers]. apply lookup_delete_eq.
Qed.

(** C9, as stated, fails: the poll thread buffers "b" while the callback is
    blocked in the model; the callback then deletes the buffer, and "b" is
    neither in the stored batch nor pending. *)
Lemma ingest_during_flush_is_dropped : ¬ ingest_during_flush_is_coalesced.
Proof.
  intros Hclaim.
  destruct (Hclaim working_external "19:a" "1" callback_starting "b" "2" 1 3
              (Returned tt)
              (snd (run_schedule working_external "19:a"
                      [StepFlush; Ingest "b" "2"; StepFlush; StepFlush; StepFlush]
                      (AtEntry "19:a" "1") callback_starting)))
    as [Hmerged|Hpending].
  - vm_compute. eauto.
  - reflexivity.
  - discriminate.
  - vm_compute. reflexivity.
  - vm_compute in Hmerged.
    apply elem_of_cons in Hmerged as [Heq|Hmerged]; [discriminate Heq|].
    apply elem_of_cons in Hmerged as [Heq|Hmerged]; [discriminate Heq|].
    by apply elem_of_nil in Hmerged.
  - vm_compute in Hpending. by apply elem_of_nil in Hpending.
Qed.

Example dropped_ingest_never_flushed :
  let s' := snd (run_schedule working_external "19:a"
                   [StepFlush; Ingest "b" "2"; StepFlush; StepFlush; StepFlush]
                   (AtEntry "19:a" "1") callback_starting) in
  history_of s' "19:a" = [mk_entry (Some "1") User "hi"; mk_entry None Me "ok"]
  ∧ message_buffers s' !! "19:a" = None
  ∧ timers s' !! 1 = Some (mk_timer (0 + MESSAGE_DELAY) "19:a" "2" Waiting)
  ∧ ∀ tm, timers s' !! 1 = Some tm →
      fst (fire (λ _, working_external) 1 tm s') = (1, Returned tt)
      ∧ history_of (snd (fire (λ _, working_external) 1 tm s')) "19:a"
        = [mk_entry (Some "1") User "hi"; mk_entry None Me "ok"].
Proof.
  vm_compute. repeat split; intros tm [= <-]; reflexivity.
Qed.

Lemma run_schedule_app x c l1 l2 : ∀ pc s,
  run_schedule x c (l1 ++ l2) pc s =
  run_schedule x c l2 (fst (run_schedule x c l1 pc s)) (snd (run_schedule x c l1 pc s)).
Proof.
  induction l1 as [|[m mid|] l1 IH]; intros pc s; [done| |]; simpl; apply IH.
Qed.

Lemma clock_process_buffered_messages x c mid s :
  clock (snd (process_buffered_messages x c mid s)) = clock s.
Proof.
  destruct (message_buffers s !! c) as [b|] eqn:Hb.
  - rewrite (process_buffered_messages_run x c mid s b Hb). cbv zeta.
    destruct (invoke x _ _) as [r|]; [|done].
    destruct (input x send_prompt) as [choice|]; [|done].
    by destruct (confirms choice && negb (send_message x c r)).
  - by rewrite process_buffered_messages_idle.
Qed.

(** C9, amended. The code takes no lock.  What holds is this: an ingest
    that runs as a whole before the callback's first statement is part of
    the batch that the callback stores; an ingest that runs after the
    callback has exited is appended to the chat's pending list - the only
    element of a new list when the callback returned, after the kept
    messages when it raised - and its timer is waiting. *)
Theorem ingest_outside_flush_is_coalesced (x : external)
    (chat_id message_id0 message message_id1 : string) (s : state) (b : buffer) :
  message_buffers s !! chat_id = Some b →
  already_processed message_id1 (history_of s chat_id) = false →
  message_id1 ≠ message_id0 →
  let flush := [StepFlush; StepFlush; StepFlush; StepFlush] in
  let early := run_schedule x chat_id (Ingest message message_id1 :: flush)
                 (AtEntry chat_id message_id0) s in
  let late := run_schedule x chat_id (flush ++ [Ingest message message_id1])
                (AtEntry chat_id message_id0) s in
  (∃ r, fst early = Exited r)
  ∧ user_turn message_id0 (messages b ++ [message]) ∈ history_of (snd early) chat_id
  ∧ ∃ r, fst late = Exited r
      ∧ pending (snd late) chat_id
        = (match r with Returned _ => [] | Raised _ => messages b end) ++ [message]
      ∧ message_buffers (snd late) !! chat_id ≫= timer = Some (length (timers s))
      ∧ last (timers (snd late))
        = Some (mk_timer (clock s + MESSAGE_DELAY) chat_id message_id1 Waiting).
Proof.
  intros Hb Hfresh Hne flush early late. split; [|split].
  - subst early flush. rewrite run_schedule_ingest, flush_steps_complete.
    unfold exit_with. cbn [fst]. eauto.
  - subst early flush. rewrite run_schedule_ingest, flush_steps_complete.
    unfold exit_with. cbn [snd].
    destruct (buffer_message_fresh message message_id1 chat_id s Hfresh) as (Hb1 & _).
    rewrite (pending_lookup _ _ _ Hb) in Hb1.
    apply (batch_in_history_after_flush x chat_id message_id0 _ _ Hb1).
  - subst late flush. rewrite run_schedule_app, flush_steps_complete.
    unfold exit_with. cbn [fst snd]. rewrite run_schedule_ingest.
    set (rs := process_buffered_messages x chat_id message_id0 s).
    assert (Hfresh' : already_processed message_id1 (history_of (snd rs) chat_id) = false).
    { apply already_processed_false. intros e He.
      destruct (flush_history_elements x chat_id message_id0 s b e Hb He)
        as [Hold|[->|[_ Hnone]]].
      - rewrite already_processed_false in Hfresh. by apply Hfresh.
      - simpl. intros [= Heq]. by apply Hne.
      - by rewrite Hnone. }
    destruct (buffer_message_fresh message message_id1 chat_id (snd rs) Hfresh')
      as (Hb2 & Ht2 & _ & _).
    unfold rs in Hb2 at 2. rewrite timers_process_buffered_messages in Hb2.
    unfold rs in Ht2 at 4. rewrite clock_process_buffered_messages in Ht2.
    exists (fst rs). cbn [run_schedule fst snd]. split; [done|].
    rewrite (pending_lookup _ _ _ Hb2), Hb2, Ht2, last_snoc. cbn [messages].
    split; [|done]. f_equal.
    destruct (flush_buffer_cases x chat_id message_id0 s b Hb) as [[Hr Hgone]|[[e Hr] Hkept]];
      fold rs in Hr, Hgone || fold rs in Hr, Hkept; rewrite Hr.
    + unfold pending. by rewrite Hgone.
    + unfold pending. by rewrite Hkept.
Qed.

Lemma ingest_outside_flush_is_coalesced_witness :
  message_buffers callback_starting !! "19:a" = Some (mk_buffer (Some 0) ["hi"])
  ∧ already_processed "2" (history_of callback_starting "19:a") = false
  ∧ mk_entry (Some "1") User "hi b"
    ∈ history_of
        (snd (run_schedule working_external "19:a"
                [Ingest "b" "2"; StepFlush; StepFlush; StepFlush; StepFlush]
                (AtEntry "19:a" "1") callback_starting))
        "19:a".
Proof.
  split; [reflexivity|]. split; [reflexivity|].
  assert (Hne : "2" ≠ "1") by discriminate.
  apply (ingest_outside_flush_is_coalesced working_external "19:a" "1" "b" "2"
           callback_starting (mk_buffer (Some 0) ["hi"]) eq_refl eq_refl Hne).
Defined.

(** ** The rounds of [advance_to] are enough *)

Lemma earliest_due_valid t all : ∀ ts pre best,
  all = pre ++ ts →
  (∀ j tb, best = Some (j, tb) → all !! j = Some tb ∧ is_due t tb = true) →
  ∀ j tb, earliest_due t ts (length pre) best = Some (j, tb) →
          all !! j = Some tb ∧ is_due t tb = true.
Proof.
  induction ts as [|tm ts IH]; intros pre best Hall Hbest j tb Hres.
  - simpl in Hres. by apply Hbest.
  - simpl in Hres.
    replace (S (length pre)) with (length (pre ++ [tm])) in Hres
      by (rewrite length_app; simpl; lia).
    eapply (IH (pre ++ [tm])); [by rewrite <- app_assoc| |exact Hres].
    intros j' tb' Hsel. destruct (is_due t tm) eqn:Hdue; [|by apply Hbest].
    assert (Hhere : all !! length pre = Some tm)
      by (subst all; by apply list_lookup_middle).
    destruct best as [[jb tbb]|].
    + destruct (Qle_bool (deadline tbb) (deadline tm)); [by apply Hbest|].
      by injection Hsel as <- <-.
    + by injection Hsel as <- <-.
Qed.

Lemma earliest_due_found t ts : ∀ i best,
  earliest_due t ts i best = None → best = None ∧ Forall (λ tm, is_due t tm = false) ts.
Proof.
  induction ts as [|tm ts IH]; intros i best Hres; [done|].
  simpl in Hres. apply IH in Hres as [Hbest Hts].
  destruct (is_due t tm) eqn:Hdue.
  - destruct best as [[jb tbb]|]; [|discriminate Hbest].
    by destruct (Qle_bool (deadline tbb) (deadline tm)).
  - split; [done|]. by apply Forall_cons.
Qed.

Lemma due_count_zero t ts : due_count t ts = 0 → Forall (λ tm, is_due t tm = false) ts.
Proof.
  unfold due_count. induction ts as [|tm ts IH]; intros Hzero; [done|].
  destruct (is_due t tm) eqn:Hdue.
  - rewrite filter_cons_True in Hzero by done. discriminate Hzero.
  - rewrite filter_cons_False in Hzero by (by rewrite Hdue). apply Forall_cons. auto.
Qed.

Lemma due_count_fired t ts : ∀ h tm,
  ts !! h = Some tm → is_due t tm = true →
  S (due_count t (alter mark_fired h ts)) = due_count t ts.
Proof.
  unfold due_count. induction ts as [|tm' ts IH]; intros h tm Hh Hdue; [done|].
  destruct h as [|h].
  - injection Hh as ->. simpl alter.
    rewrite filter_cons_False by (by rewrite not_waiting_not_due).
    by rewrite filter_cons_True by done.
  - simpl in Hh. simpl alter. destruct (is_due t tm') eqn:Hdue'.
    + rewrite !filter_cons_True by done. simpl. f_equal. by eapply IH.
    + rewrite !filter_cons_False by (by rewrite Hdue'). by eapply IH.
Qed.

Lemma run_timers_complete w t : ∀ fuel s,
  due_count t (timers s) ≤ fuel →
  Forall (λ tm, is_due t tm = false) (timers (snd (run_timers fuel w t s))).
Proof.
  induction fuel as [|fuel IH]; intros s Hcount.
  - simpl. apply due_count_zero. lia.
  - simpl. destruct (earliest_due t (timers s) 0 None) as [[h tm]|] eqn:Hnext.
    + cbn [snd]. apply IH.
      destruct (earliest_due_valid t (timers s) (timers s) [] None eq_refl
                  ltac:(discriminate) h tm Hnext) as [Hh Hdue].
      unfold fire. cbn [snd]. rewrite timers_process_buffered_messages.
      cbn [timers set_clock set_timers].
      pose proof (due_count_fired t (timers s) h tm Hh Hdue). lia.
    + by apply earliest_due_found in Hnext as [_ Hnone].
Qed.

(** Whatever the state, once the clock has been advanced to [t] no timer
    due at [t] is left waiting: the fuel of [advance_to] never runs out. *)
Lemma advance_to_complete w t s :
  Forall (λ tm, is_due t tm = false) (timers (snd (advance_to w t s))).
Proof.
  unfold advance_to. cbn [snd]. change (timers (set_clock t ?s0)) with (timers s0).
  apply run_timers_complete. unfold due_count. apply length_filter.
Qed.

Example one_poll_buffers_both :
  let s := snd (fetch_new_messages [("1", "a"); ("2", "b")] "19:a" initial_state) in
  pending s "19:a" = ["a"; "b"]
  ∧ status <$> timers s = [Cancelled; Waiting]
  ∧ timer_message_id <$> last (timers s) = Some "2".
Proof. vm_compute. repeat split. Qed.

(** * Further properties of the code *)

(** ** What [buffer_message] touches *)

Lemma buffer_message_effects m mid c s :
  let rs := buffer_message m mid c s in
  fst rs = Returned tt
  ∧ clock (snd rs) = clock s
  ∧ (∀ c', history_of (snd rs) c' = history_of s c')
  ∧ (∀ c', c ≠ c' → message_buffers (snd rs) !! c' = message_buffers s !! c')
  ∧ (already_processed mid (history_of s c) = true →
     timers (snd rs) = timers s
     ∧ pending (snd rs) c = pending s c
     ∧ message_buffers (snd rs) !! c ≫= timer = message_buffers s !! c ≫= timer)
  ∧ (already_processed mid (history_of s c) = false →
     message_buffers (snd rs) !! c
     = Some (mk_buffer (Some (length (timers s))) (pending s c ++ [m]))
     ∧ timers (snd rs)
       = timers_after_cancel (buffer_or_new s c) (timers s)
         ++ [mk_timer (clock s + MESSAGE_DELAY) c mid Waiting]).
Proof.
  cbv zeta. rewrite buffer_message_run. cbv zeta.
  assert (Hhist : ∀ (mb : gmap string buffer) ts c',
    history_of (mk_state (<[c := history_of s c]> (chat_history s)) mb ts (clock s)) c'
    = history_of s c').
  { intros mb ts c'. unfold history_of at 1. cbn [chat_history].
    destruct (decide (c = c')) as [<-|Hne];
      [by rewrite lookup_insert_eq|by rewrite lookup_insert_ne]. }
  destruct (already_processed mid (history_of s c)) eqn:Hdup; cbn [fst snd].
  - split; [done|]. split; [done|]. split; [apply Hhist|].
    split; [intros c' Hne; cbn [message_buffers]; by rewrite lookup_insert_ne|].
    split; [|done]. intros _. cbn [timers message_buffers]. split; [done|].
    unfold pending. cbn [message_buffers]. rewrite lookup_insert_eq.
    unfold buffer_or_new. by destruct (message_buffers s !! c).
  - split; [done|]. split; [done|]. split; [apply Hhist|].
    split; [intros c' Hne; cbn [message_buffers]; by rewrite lookup_insert_ne|].
    split; [done|]. intros _. cbn [timers message_buffers].
    by rewrite lookup_insert_eq, messages_buffer_or_new.
Qed.

Lemma timers_after_cancel_length b ts : length (timers_after_cancel b ts) = length ts.
Proof. unfold timers_after_cancel. destruct (timer b); [apply length_alter|done]. Qed.

Lemma cancel_timer_status tm :
  status (cancel_timer tm) = Waiting → False.
Proof. unfold cancel_timer. destruct (status tm) eqn:Hst; simpl; congruence. Qed.

Lemma cancel_timer_fields tm :
  deadline (cancel_timer tm) = deadline tm
  ∧ timer_chat_id (cancel_timer tm) = timer_chat_id tm
  ∧ timer_message_id (cancel_timer tm) = timer_message_id tm.
Proof. unfold cancel_timer. by destruct (status tm). Qed.

(** X1. [buffer_message] returns without raising, whatever it is given.  It
    never changes a history list or the clock, and it leaves the buffer of
    every other chat as it was.  The timer objects that existed before keep
    their handle, chat, message and deadline; none of them is set waiting:
    the only change a call can make to them is to cancel one. *)
Theorem buffer_message_frame (message message_id0 chat_id : string) (s : state) :
  let rs := buffer_message message message_id0 chat_id s in
  fst rs = Returned tt
  ∧ clock (snd rs) = clock s
  ∧ (∀ c', history_of (snd rs) c' = history_of s c')
  ∧ (∀ c', chat_id ≠ c' → message_buffers (snd rs) !! c' = message_buffers s !! c')
  ∧ (∀ h tm, timers s !! h = Some tm →
       ∃ tm', timers (snd rs) !! h = Some tm'
              ∧ deadline tm' = deadline tm
              ∧ timer_chat_id tm' = timer_chat_id tm
              ∧ timer_message_id tm' = timer_message_id tm
              ∧ (status tm' = status tm ∨ (status tm = Waiting ∧ status tm' = Cancelled))).
Proof.
  intros rs.
  destruct (buffer_message_effects message message_id0 chat_id s)
    as (Hret & Hclock & Hhist & Hother & Hdup & Hfresh).
  fold rs in Hret, Hclock, Hhist, Hother, Hdup, Hfresh.
  split; [done|]. split; [done|]. split; [done|]. split; [done|].
  intros h tm Hh.
  destruct (already_processed message_id0 (history_of s chat_id)) eqn:Hproc.
  - destruct (Hdup eq_refl) as (-> & _). exists tm. repeat split; auto.
  - destruct (Hfresh eq_refl) as (_ & ->).
    rewrite lookup_app_l
      by (rewrite timers_after_cancel_length; by eapply lookup_lt_Some).
    unfold timers_after_cancel. destruct (timer (buffer_or_new s chat_id)) as [t|].
    + rewrite list_lookup_alter. destruct (decide (t = h)) as [->|Hne].
      * rewrite Hh. simpl. exists (cancel_timer tm). split; [done|].
        destruct (cancel_timer_fields tm) as (-> & -> & ->).
        repeat split. unfold cancel_timer.
        destruct (status tm) eqn:Hst; simpl; rewrite ?Hst; auto.
      * exists tm. repeat split; auto.
    + exists tm. repeat split; auto.
Qed.

(** ** What the callback touches *)

Lemma process_buffered_messages_effects x c mid s :
  let rs := process_buffered_messages x c mid s in
  timers (snd rs) = timers s
  ∧ clock (snd rs) = clock s
  ∧ (∀ c', c ≠ c' → history_of (snd rs) c' = history_of s c')
  ∧ (∀ c', c ≠ c' → message_buffers (snd rs) !! c' = message_buffers s !! c')
  ∧ (message_buffers (snd rs) !! c = message_buffers s !! c
     ∨ message_buffers (snd rs) !! c = None)
  ∧ fst rs ≠ Raised KeyError.
Proof.
  cbv zeta. rewrite timers_process_buffered_messages, clock_process_buffered_messages.
  split; [done|]. split; [done|].
  destruct (message_buffers s !! c) as [b|] eqn:Hb.
  - destruct (flush_history_cases x c mid s b Hb) as [_ Hother].
    split; [exact Hother|].
    rewrite (process_buffered_messages_run x c mid s b Hb). cbv zeta.
    destruct (invoke x _ _) as [r|]; [|by auto].
    destruct (input x send_prompt) as [choice|]; [|by auto].
    destruct (confirms choice && negb (send_message x c r)); [by auto|].
    cbn [fst snd message_buffers set_message_buffers].
    rewrite message_buffers_with_history.
    split; [intros c' Hne; by rewrite lookup_delete_ne|].
    split; [right; apply lookup_delete_eq|done].
  - rewrite process_buffered_messages_idle by done. cbn [fst snd]. rewrite Hb. auto.
Qed.


(** ** The identifier stored by a callback *)

Lemma already_processed_true mid h e :
  e ∈ h → message_id e = Some mid → already_processed mid h = true.
Proof.
  intros He Hid. unfold already_processed. apply existsb_exists.
  exists e. split; [by apply list_elem_of_In|]. by apply bool_decide_eq_true.
Qed.

(** X3. Once a callback has found a buffer for its chat, the identifier it
    was started with is in the chat's history, however the callback ended
    (returned, or raised in the model, at the prompt or in the send).  A
    later [buffer_message] with that identifier is therefore dropped: no
    pending list grows and no timer is cancelled or started. *)
Theorem flushed_id_is_dropped_afterwards (x : external) (chat_id message_id0 message : string)
    (s : state) (b : buffer) :
  message_buffers s !! chat_id = Some b →
  let s1 := snd (process_buffered_messages x chat_id message_id0 s) in
  let s2 := snd (buffer_message message message_id0 chat_id s1) in
  already_processed message_id0 (history_of s1 chat_id) = true
  ∧ timers s2 = timers s
  ∧ pending s2 chat_id = pending s1 chat_id
  ∧ (∀ c', history_of s2 c' = history_of s1 c').
Proof.
  intros Hb s1 s2.
  assert (Hdup : already_processed message_id0 (history_of s1 chat_id) = true).
  { eapply already_processed_true;
      [apply (batch_in_history_after_flush x chat_id message_id0 s b Hb)|done]. }
  destruct (buffer_message_effects message message_id0 chat_id s1)
    as (_ & _ & Hhist & _ & Hdrop & _).
  destruct (Hdrop Hdup) as (Ht & Hp & _). fold s2 in Hhist, Ht, Hp.
  split; [done|]. split; [|done].
  rewrite Ht. apply timers_process_buffered_messages.
Qed.

Lemma flushed_id_is_dropped_afterwards_witness :
  message_buffers one_buffered !! "19:a" = Some (mk_buffer (Some 0) ["hi"])
  ∧ timers (snd (buffer_message "hi" "1" "19:a"
                   (snd (process_buffered_messages failing_model "19:a" "1" one_buffered))))
    = timers one_buffered.
Proof.
  split; [reflexivity|].
  apply (flushed_id_is_dropped_afterwards failing_model "19:a" "1" "hi" one_buffered
           (mk_buffer (Some 0) ["hi"]) eq_refl).
Defined.

(** ** The operator's answer *)

Lemma confirms_spec choice : confirms choice = true ↔ choice = "y" ∨ choice = "Y".
Proof.
  unfold confirms. rewrite orb_true_iff, !bool_decide_eq_true. done.
Qed.

(** X4. When the operator answers anything but "y" or "Y" (the empty line
    included), the reply is not sent: the outcome and the state are the same
    whatever [send_message] would have done.  The callback returns, the
    reply is the last entry of the chat's history and the buffer is gone. *)
Theorem declined_reply_is_not_sent (x : external) (send' : string → string → bool)
    (chat_id message_id0 : string) (s : state) (b : buffer) (r choice : string) :
  message_buffers s !! chat_id = Some b →
  invoke x
    (generate_conversation
       (append_entry (history_of s chat_id) (user_turn message_id0 (messages b)))
       (lookup_user_name chat_id))
    (lookup_user_name chat_id) = Some r →
  input x send_prompt = Some choice →
  choice ≠ "y" → choice ≠ "Y" →
  let rs := process_buffered_messages x chat_id message_id0 s in
  rs = process_buffered_messages (mk_external (invoke x) (input x) send')
         chat_id message_id0 s
  ∧ fst rs = Returned tt
  ∧ last (history_of (snd rs) chat_id) = Some (reply_turn r)
  ∧ message_buffers (snd rs) !! chat_id = None.
Proof.
  intros Hb Hr Hin Hy HY rs. subst rs.
  assert (Hno : confirms choice = false).
  { destruct (confirms choice) eqn:Hc; [|done].
    apply confirms_spec in Hc as [->| ->]; done. }
  rewrite !(process_buffered_messages_run _ chat_id message_id0 s b Hb). cbv zeta.
  cbn [invoke input send_message]. rewrite Hr, Hin, Hno. cbn [andb fst snd].
  split; [done|]. split; [done|].
  rewrite history_of_set_message_buffers, history_of_with_history.
  split; [apply append_entry_last|].
  cbn [message_buffers set_message_buffers]. apply lookup_delete_eq.
Qed.

Lemma declined_reply_is_not_sent_witness :
  message_buffers one_buffered !! "19:a" = Some (mk_buffer (Some 0) ["hi"])
  ∧ fst (process_buffered_messages
           (mk_external (λ _ _, Some "ok") (λ _, Some "") (λ _ _, false))
           "19:a" "1" one_buffered) = Returned tt.
Proof.
  split; [reflexivity|].
  assert (H1 : "" ≠ "y") by discriminate.
  assert (H2 : "" ≠ "Y") by discriminate.
  apply (declined_reply_is_not_sent
           (mk_external (λ _ _, Some "ok") (λ _, Some "") (λ _ _, false))
           (λ _ _, true) "19:a" "1" one_buffered (mk_buffer (Some 0) ["hi"]) "ok" ""
           eq_refl eq_refl eq_refl H1 H2).
Defined.

(** ** What the model is asked *)

(** X5. The conversation handed to the model by a callback always ends
    with the line of the batch just merged - the user's label, a colon and a
    space, and the pending messages joined by spaces.  It is that line alone
    when nothing older is kept, and otherwise the rendering of the older
    entries, a newline, and that line. *)
Theorem prompt_ends_with_batch (x : external) (chat_id message_id0 : string)
    (s : state) (b : buffer) :
  message_buffers s !! chat_id = Some b →
  let user_name := lookup_user_name chat_id in
  let line := user_name +:+ ": " +:+ join " " (messages b) in
  ∃ conversation older,
    fst (flush_step x (AtEntry chat_id message_id0) s)
    = AtInvoke chat_id conversation user_name
    ∧ older ⊆ history_of s chat_id
    ∧ conversation
      = match older with
        | [] => line
        | _ :: _ => generate_conversation older user_name +:+ NL +:+ line
        end.
Proof.
  intros Hb user_name line.
  rewrite (flush_step_entry x chat_id message_id0 s b Hb). cbv zeta. cbn [fst].
  destruct (append_entry_snoc (history_of s chat_id) (user_turn message_id0 (messages b)))
    as (older & -> & Hsub).
  exists (generate_conversation (older ++ [user_turn message_id0 (messages b)]) user_name),
    older.
  split; [done|]. split; [done|].
  destruct older as [|e older]; [done|].
  unfold generate_conversation. rewrite map_app. simpl map. by rewrite join_snoc.
Qed.

Lemma prompt_ends_with_batch_witness :
  message_buffers one_buffered !! "19:a" = Some (mk_buffer (Some 0) ["hi"])
  ∧ ∃ conversation older,
      fst (flush_step working_external (AtEntry "19:a" "1") one_buffered)
      = AtInvoke "19:a" conversation "User"
      ∧ older ⊆ history_of one_buffered "19:a"
      ∧ conversation
        = match older with
          | [] => "User: hi"
          | _ :: _ => generate_conversation older "User" +:+ NL +:+ "User: hi"
          end.
Proof.
  split; [reflexivity|].
  apply (prompt_ends_with_batch working_external "19:a" "1" one_buffered
           (mk_buffer (Some 0) ["hi"]) eq_refl).
Defined.

(** ** The history after a callback *)

(** X6. A callback that returns has appended two entries, the batch and
    the reply, and the chat's history is the last 20 of the old entries
    followed by those two: on a history that already holds 20 entries the
    two oldest are gone. *)
Theorem returned_flush_appends_two (x : external) (chat_id message_id0 : string)
    (s : state) (b : buffer) :
  message_buffers s !! chat_id = Some b →
  length (history_of s chat_id) ≤ MAX_MESSAGE_HISTORY →
  let rs := process_buffered_messages x chat_id message_id0 s in
  fst rs = Returned tt →
  ∃ r,
    let appended := history_of s chat_id
                    ++ [mk_entry (Some message_id0) User (join " " (messages b));
                        mk_entry None Me r] in
    history_of (snd rs) chat_id
    = drop (length appended - MAX_MESSAGE_HISTORY) appended
    ∧ (length (history_of s chat_id) = MAX_MESSAGE_HISTORY →
       history_of (snd rs) chat_id
       = drop 2 (history_of s chat_id)
         ++ [mk_entry (Some message_id0) User (join " " (messages b)); mk_entry None Me r]).
Proof.
  intros Hb Hlen rs Hret. subst rs.
  rewrite (process_buffered_messages_run x chat_id message_id0 s b Hb) in Hret |- *.
  cbv zeta in Hret |- *.
  destruct (invoke x _ _) as [r|]; [|discriminate Hret].
  destruct (input x send_prompt) as [choice|]; [|discriminate Hret].
  destruct (confirms choice && negb (send_message x chat_id r)); [discriminate Hret|].
  exists r. cbn [snd]. rewrite history_of_set_message_buffers, history_of_with_history.
  assert (Heq : append_entry (append_entry (history_of s chat_id)
                  (user_turn message_id0 (messages b))) (reply_turn r)
    = last_n MAX_MESSAGE_HISTORY
        (history_of s chat_id ++ [user_turn message_id0 (messages b); reply_turn r])).
  { rewrite (append_entry_last_n (append_entry _ _)) by by apply append_entry_length.
    rewrite (append_entry_last_n (history_of s chat_id)) by done.
    rewrite last_n_app. by rewrite <- app_assoc. }
  split; [exact Heq|].
  intros Hfull. rewrite Heq. unfold last_n. rewrite length_app, Hfull. simpl length.
  replace (MAX_MESSAGE_HISTORY + 2 - MAX_MESSAGE_HISTORY) with 2 by lia.
  rewrite drop_app_le; [done|]. rewrite Hfull. unfold MAX_MESSAGE_HISTORY. lia.
Qed.

Lemma returned_flush_appends_two_witness :
  message_buffers one_buffered !! "19:a" = Some (mk_buffer (Some 0) ["hi"])
  ∧ length (history_of one_buffered "19:a") ≤ MAX_MESSAGE_HISTORY
  ∧ ∃ r, history_of
           (snd (process_buffered_messages working_external "19:a" "1" one_buffered)) "19:a"
         = drop (length (history_of one_buffered "19:a"
                         ++ [mk_entry (Some "1") User "hi"; mk_entry None Me r])
                 - MAX_MESSAGE_HISTORY)
             (history_of one_buffered "19:a"
              ++ [mk_entry (Some "1") User "hi"; mk_entry None Me r]).
Proof.
  split; [reflexivity|].
  assert (Hlen : length (history_of one_buffered "19:a") ≤ MAX_MESSAGE_HISTORY)
    by (vm_compute; lia).
  split; [exact Hlen|].
  destruct (returned_flush_appends_two working_external "19:a" "1" one_buffered
              (mk_buffer (Some 0) ["hi"]) eq_refl Hlen eq_refl) as (r & Hr & _).
  exists r. exact Hr.
Defined.

(** ** How long an identifier is remembered *)

(** X7. The check for an already processed message looks at the stored
    entries only, and the history keeps 20 of them.  After 20 or more
    further entries have been appended to a chat, none of them carrying a
    given identifier, that identifier is no longer found, whether or not it
    was in the history before: the same message would be accepted again. *)
Theorem identifier_forgotten_after_capacity (s : state) (appends : list (string * entry))
    (chat_id message_id0 : string) :
  length (history_of s chat_id) ≤ MAX_MESSAGE_HISTORY →
  MAX_MESSAGE_HISTORY ≤ length (entries_for chat_id appends) →
  (∀ e, e ∈ entries_for chat_id appends → message_id e ≠ Some message_id0) →
  already_processed message_id0 (history_of (snd (append_all appends s)) chat_id) = false.
Proof.
  intros Hlen Hmany Hother.
  rewrite append_all_history by done.
  apply already_processed_false. intros e He. apply Hother.
  unfold last_n in He. rewrite length_app in He.
  rewrite drop_app_ge in He by lia.
  by apply (subseteq_drop _ _ e) in He.
Qed.

Lemma identifier_forgotten_after_capacity_witness :
  already_processed "5" (history_of processed_five "19:a") = true
  ∧ already_processed "5"
      (history_of (snd (append_all (replicate 20 ("19:a", mk_entry None Me "x"))
                          processed_five)) "19:a") = false.
Proof.
  split; [reflexivity|].
  apply (identifier_forgotten_after_capacity processed_five
           (replicate 20 ("19:a", mk_entry None Me "x")) "19:a" "5").
  - vm_compute. lia.
  - vm_compute. lia.
  - intros e He. vm_compute in He.
    repeat (apply elem_of_cons in He as [->|He]; [discriminate|]).
    by apply elem_of_nil in He.
Defined.

(** ** One poll: the loop of [fetch_new_messages] *)

Lemma fetch_new_messages_effects fetched c : ∀ s,
  let rs := fetch_new_messages fetched c s in
  let fresh := filter (λ p, already_processed p.1 (history_of s c) = false) fetched in
  fst rs = Returned tt
  ∧ clock (snd rs) = clock s
  ∧ (∀ c', history_of (snd rs) c' = history_of s c')
  ∧ (∀ c', c ≠ c' → message_buffers (snd rs) !! c' = message_buffers s !! c')
  ∧ pending (snd rs) c = pending s c ++ fresh.*2
  ∧ length (timers (snd rs)) = length (timers s) + length fresh
  ∧ (fresh = [] →
     timers (snd rs) = timers s
     ∧ message_buffers (snd rs) !! c ≫= timer = message_buffers s !! c ≫= timer)
  ∧ (∀ p, last fresh = Some p →
       last (timers (snd rs)) = Some (mk_timer (clock s + MESSAGE_DELAY) c p.1 Waiting)
       ∧ message_buffers (snd rs) !! c ≫= timer
         = Some (length (timers s) + length fresh - 1)).
Proof.
  induction fetched as [|[mid ct] rest IH]; intros s; cbv zeta.
  - simpl. rewrite app_nil_r, Nat.add_0_r. repeat split; try done.
  - cbn [fetch_new_messages]. rewrite bind_run.
    destruct (buffer_message_effects ct mid c s)
      as (Hret & Hclock & Hhist & Hother & Hdup & Hfresh).
    destruct (buffer_message ct mid c s) as [r1 s1] eqn:Hrun. cbn [fst snd] in *.
    subst r1. specialize (IH s1). cbv zeta in IH.
    destruct IH as (IHret & IHclock & IHhist & IHother & IHpend & IHlen & IHnil & IHlast).
    rewrite Hhist in IHpend, IHlen, IHnil, IHlast.
    set (fresh := filter (λ p, already_processed p.1 (history_of s c) = false) rest) in *.
    split; [done|]. split; [congruence|].
    split; [intros c'; by rewrite IHhist|].
    split; [intros c' Hne; by rewrite IHother, Hother|].
    destruct (already_processed mid (history_of s c)) eqn:Hproc.
    + destruct (Hdup eq_refl) as (Ht & Hp & Htm).
      rewrite filter_cons_False by (simpl; congruence). fold fresh.
      rewrite IHpend, IHlen, Hp, Ht. split; [done|]. split; [done|].
      split; [intros Hnil; destruct (IHnil Hnil) as [-> ->]; by rewrite Ht, Htm|].
      intros p Hp'. destruct (IHlast p Hp') as [-> ->]. by rewrite Hclock, Ht.
    + destruct (Hfresh eq_refl) as (Hb1 & Ht1).
      rewrite filter_cons_True by done. fold fresh.
      assert (Hlen1 : length (timers s1) = S (length (timers s))).
      { rewrite Ht1, length_app, timers_after_cancel_length. simpl. lia. }
      rewrite IHpend, IHlen, Hlen1, (pending_lookup _ _ _ Hb1). cbn [messages].
      split; [by rewrite fmap_cons, <- app_assoc|].
      split; [simpl; lia|]. split; [done|].
      intros p Hp'. destruct fresh as [|q fresh'] eqn:Hfr.
      * simpl in Hp'. injection Hp' as <-. destruct (IHnil eq_refl) as [-> ->].
        rewrite Ht1, last_snoc, Hb1. simpl. split; [done|]. f_equal. lia.
      * assert (Hp'' : last (q :: fresh') = Some p) by exact Hp'.
        destruct (IHlast p Hp'') as [-> ->]. rewrite Hclock. split; [done|].
        f_equal. simpl. lia.
Qed.


Lemma filter_ext_elem {A} (P1 P2 : A → Prop) `{!∀ x, Decision (P1 x)}
    `{!∀ x, Decision (P2 x)} (l : list A) :
  (∀ x, x ∈ l → P1 x ↔ P2 x) → filter P1 l = filter P2 l.
Proof.
  induction l as [|a l IH]; intros Hiff; [done|].
  assert (Hl : filter P1 l = filter P2 l).
  { apply IH. intros y Hy. apply Hiff. by right. }
  destruct (decide (P1 a)) as [H1|H1].
  - rewrite !filter_cons_True; [by rewrite Hl| |done]. apply Hiff; [by left|done].
  - rewrite !filter_cons_False; [done| |done]. intros H2. apply H1, Hiff; [by left|done].
Qed.

(** X9. Only the identifier of the last message of a batch is stored.  So
    when the messages of a batch - none of them in the history before - are
    fetched again after their callback has run, the ones whose identifier
    is that of the callback are dropped and all the others are appended to
    the pending list once more, each starting a timer: they will be merged
    and answered a second time. *)
Theorem refetch_buffers_earlier_messages_again (x : external) (chat_id message_id0 : string)
    (s : state) (b : buffer) (fetched : list (string * string)) :
  message_buffers s !! chat_id = Some b →
  (∀ p, p ∈ fetched → already_processed p.1 (history_of s chat_id) = false) →
  let s1 := snd (process_buffered_messages x chat_id message_id0 s) in
  let s2 := snd (fetch_new_messages fetched chat_id s1) in
  let again := filter (λ p, p.1 ≠ message_id0) fetched in
  pending s2 chat_id = pending s1 chat_id ++ again.*2
  ∧ length (timers s2) = length (timers s) + length again
  ∧ (∀ p, last again = Some p →
       last (timers s2) = Some (mk_timer (clock s + MESSAGE_DELAY) chat_id p.1 Waiting)).
Proof.
  intros Hb Hfresh s1 s2 again.
  destruct (fetch_new_messages_effects fetched chat_id s1)
    as (_ & _ & _ & _ & Hpend & Hlen & _ & Hlast).
  fold s2 in Hpend, Hlen, Hlast.
  assert (Hsame : filter (λ p, already_processed p.1 (history_of s1 chat_id) = false) fetched
                  = again).
  { apply filter_ext_elem. intros p Hp. split.
    - intros Hnew Heq. rewrite Heq in Hnew.
      assert (Hold : already_processed message_id0 (history_of s1 chat_id) = true).
      { eapply already_processed_true;
          [apply (batch_in_history_after_flush x chat_id message_id0 s b Hb)|done]. }
      congruence.
    - intros Hne. apply already_processed_false. intros e He.
      destruct (flush_history_elements x chat_id message_id0 s b e Hb He)
        as [Hold|[->|[_ Hnone]]].
      + specialize (Hfresh p Hp). rewrite already_processed_false in Hfresh.
        by apply Hfresh.
      + simpl. intros [= Heq]. by apply Hne.
      + by rewrite Hnone. }
  rewrite Hsame in Hpend, Hlen, Hlast.
  replace (length (timers s1)) with (length (timers s)) in Hlen
    by (unfold s1; by rewrite timers_process_buffered_messages).
  split; [done|]. split; [done|].
  intros p Hp. destruct (Hlast p Hp) as [Hl _]. rewrite Hl.
  unfold s1. by rewrite clock_process_buffered_messages.
Qed.

Lemma refetch_buffers_earlier_messages_again_witness :
  let s := snd (fetch_new_messages [("1", "a"); ("2", "b")] "19:a" initial_state) in
  message_buffers s !! "19:a" = Some (mk_buffer (Some 1) ["a"; "b"])
  ∧ pending (snd (fetch_new_messages [("1", "a"); ("2", "b")] "19:a"
                    (snd (process_buffered_messages working_external "19:a" "2" s))))
      "19:a" = ["a"].
Proof.
  split; [reflexivity|].
  pose proof (refetch_buffers_earlier_messages_again working_external "19:a" "2"
                (snd (fetch_new_messages [("1", "a"); ("2", "b")] "19:a" initial_state))
                (mk_buffer (Some 1) ["a"; "b"]) [("1", "a"); ("2", "b")]
                eq_refl) as H.
  destruct H as (Hp & _).
  - intros p Hp. vm_compute. reflexivity.
  - rewrite Hp. reflexivity.
Defined.

(** ** Invariants of the timed model *)

Lemma is_due_waiting t tm : is_due t tm = true → status tm = Waiting.
Proof. unfold is_due. by destruct (status tm). Qed.

(** A property of states that [buffer_message], a firing timer and the
    clock keep holds after any series of operations. *)
Lemma run_ops_invariant (P : state → Prop) w :
  (∀ m mid c s, P s → P (snd (buffer_message m mid c s))) →
  (∀ h tm s, P s → timers s !! h = Some tm → status tm = Waiting →
             P (snd (fire w h tm s))) →
  (∀ t s, P s → P (set_clock t s)) →
  ∀ ops s, P s → P (run_ops w ops s).
Proof.
  intros Hbuf Hfire Hclock.
  assert (Hrun : ∀ t fuel s, P s → P (snd (run_timers fuel w t s))).
  { intros t. induction fuel as [|fuel IH]; intros s Hs; [done|].
    simpl. destruct (earliest_due t (timers s) 0 None) as [[h tm]|] eqn:Hnext; [|done].
    cbn [snd]. apply IH.
    destruct (earliest_due_valid t (timers s) (timers s) [] None eq_refl
                ltac:(discriminate) h tm Hnext) as [Hh Hdue].
    apply Hfire; [done|done|by eapply is_due_waiting]. }
  induction ops as [|[m mid c|t] ops IH]; intros s Hs; [done| |]; simpl; apply IH.
  - by apply Hbuf.
  - unfold advance_to. cbn [snd]. by apply Hclock, Hrun.
Qed.

Lemma fire_effects w h tm s :
  timers (snd (fire w h tm s)) = alter mark_fired h (timers s)
  ∧ (∀ c', timer_chat_id tm ≠ c' →
       message_buffers (snd (fire w h tm s)) !! c' = message_buffers s !! c'
       ∧ history_of (snd (fire w h tm s)) c' = history_of s c')
  ∧ (message_buffers (snd (fire w h tm s)) !! timer_chat_id tm
     = message_buffers s !! timer_chat_id tm
     ∨ message_buffers (snd (fire w h tm s)) !! timer_chat_id tm = None).
Proof.
  unfold fire. cbn [snd].
  set (s1 := set_clock (deadline tm) (set_timers (alter mark_fired h) s)).
  destruct (process_buffered_messages_effects (w h) (timer_chat_id tm)
              (timer_message_id tm) s1) as (Ht & _ & Hh & Hb & Hown & _).
  split; [by rewrite Ht|]. split; [|exact Hown].
  intros c' Hne. split; [by rewrite Hb|by rewrite Hh].
Qed.




Lemma process_history_shape x c mid s c' :
  history_of (snd (process_buffered_messages x c mid s)) c' = history_of s c'
  ∨ ∃ b, message_buffers s !! c = Some b
         ∧ (history_of (snd (process_buffered_messages x c mid s)) c'
            = append_entry (history_of s c') (user_turn mid (messages b))
            ∨ ∃ r, history_of (snd (process_buffered_messages x c mid s)) c'
                   = append_entry
                       (append_entry (history_of s c') (user_turn mid (messages b)))
                       (reply_turn r)).
Proof.
  destruct (message_buffers s !! c) as [b|] eqn:Hb.
  - destruct (flush_history_cases x c mid s b Hb) as [Hown Hother].
    destruct (decide (c = c')) as [<-|Hne]; [|left; by apply Hother].
    right. exists b. split; [done|]. exact Hown.
  - left. by rewrite process_buffered_messages_idle.
Qed.

Lemma histories_kept_by_fire (P : list entry → Prop) w h tm s :
  (∀ l e, P l → entry_well_formed e → P (append_entry l e)) →
  (∀ c, P (history_of s c)) → ∀ c, P (history_of (snd (fire w h tm s)) c).
Proof.
  intros Hstep Hs c. unfold fire. cbn [snd].
  set (s1 := set_clock (deadline tm) (set_timers (alter mark_fired h) s)).
  assert (Hs1 : ∀ c0, history_of s1 c0 = history_of s c0) by done.
  destruct (process_history_shape (w h) (timer_chat_id tm) (timer_message_id tm) s1 c)
    as [->|(b & _ & [->|[r ->]])]; rewrite Hs1.
  - apply Hs.
  - apply Hstep; [apply Hs|]. unfold entry_well_formed. simpl. eauto.
  - apply Hstep; [apply Hstep; [apply Hs|]|]; unfold entry_well_formed; simpl; eauto.
Qed.

(** X11. In the timed model, whatever messages are buffered and however
    time passes, the history of every chat holds at most 20 entries, and
    every entry in it is either a user entry with a message identifier or
    an entry of the bot without one. *)
Theorem reachable_histories_well_formed (w : nat → external) (ops : list op) (chat_id : string) :
  let s := run_ops w ops initial_state in
  length (history_of s chat_id) ≤ MAX_MESSAGE_HISTORY
  ∧ (∀ e, e ∈ history_of s chat_id →
       (user_type e = User ∧ is_Some (message_id e))
       ∨ (user_type e = Me ∧ message_id e = None)).
Proof.
  intros s.
  set (P := λ l : list entry,
         length l ≤ MAX_MESSAGE_HISTORY ∧ Forall entry_well_formed l).
  assert (Hstep : ∀ l e, P l → entry_well_formed e → P (append_entry l e)).
  { intros l e [Hlen Hall] He. split; [by apply append_entry_length|].
    apply Forall_forall. intros y Hy. rewrite Forall_forall in Hall.
    apply elem_of_append_entry in Hy as [Hy| ->]; auto. }
  assert (Hall : ∀ c, P (history_of s c)).
  { apply (run_ops_invariant (λ s0, ∀ c, P (history_of s0 c))).
    - intros m mid c s0 Hs0 c0.
      destruct (buffer_message_effects m mid c s0) as (_ & _ & -> & _). apply Hs0.
    - intros h tm s0 Hs0 _ _. by apply histories_kept_by_fire.
    - intros t s0 Hs0. exact Hs0.
    - intros c. split; [vm_compute; lia|]. apply Forall_nil_2. }
  destruct (Hall chat_id) as [Hlen Hwf]. split; [exact Hlen|].
  intros e He. rewrite Forall_forall in Hwf. specialize (Hwf e He).
  unfold entry_well_formed in Hwf. destruct (user_type e); auto.
Qed.

(** ** Messages that arrive far apart *)

Lemma fired_burst_quiescent c s a now :
  quiescent s → quiescent (burst_state c s [] a Fired now).
Proof.
  intros Hq. unfold quiescent, burst_state. cbn [timers fmap list_fmap app].
  apply Forall_app. split; [done|]. by apply Forall_singleton.
Qed.

Lemma separated_tail w c t_end : ∀ rest a s,
  quiescent s →
  apart_from MESSAGE_DELAY (arrival_time a) rest →
  NoDup (arrival_id <$> a :: rest) →
  (∀ a', a' ∈ rest → already_processed (arrival_id a') (history_of s c) = false) →
  (∀ z, last (a :: rest) = Some z → (arrival_time z + MESSAGE_DELAY <= t_end)%Q) →
  let r1 := run_arrivals w c rest (burst_state c s [] a Waiting (arrival_time a)) in
  let r2 := advance_to w t_end (snd r1) in
  (fst r1 ++ fst r2).*1 = seq (length (timers s)) (S (length rest))
  ∧ quiescent (snd r2)
  ∧ length (timers (snd r2)) = length (timers s) + S (length rest).
Proof.
  induction rest as [|a' rest IH]; intros a s Hq Hapart Hnodup Hfresh Hend; cbv zeta.
  - cbn [run_arrivals fst snd app].
    rewrite advance_to_burst_fire by (try done; by apply Hend). cbv zeta.
    cbn [fst snd length]. rewrite Nat.add_0_r. split; [done|].
    change (timers (set_clock t_end ?s0)) with (timers s0).
    unfold quiescent. change (timers (set_clock t_end ?s0)) with (timers s0).
    rewrite timers_process_buffered_messages.
    split; [by apply fired_burst_quiescent|].
    unfold burst_state. cbn [timers fmap list_fmap app]. rewrite length_app. simpl. lia.
  - destruct Hapart as [Hlt Hapart]. cbn [run_arrivals].
    rewrite advance_to_burst_fire by (try done; by apply Qlt_le_weak). cbv zeta.
    cbn [fst snd length]. rewrite Nat.add_0_r.
    set (s_fire := burst_state c s [] a Fired (arrival_time a + MESSAGE_DELAY)).
    set (pr := process_buffered_messages (w (length (timers s))) c (arrival_id a) s_fire).
    assert (Hb : message_buffers s_fire !! c
                 = Some (mk_buffer (Some (length (timers s) + 0))
                           (pending s c ++ (arrival_content <$> [] ++ [a]))))
      by apply burst_state_buffer.
    assert (Hq' : quiescent (snd pr)).
    { unfold quiescent, pr. rewrite timers_process_buffered_messages.
      by apply fired_burst_quiescent. }
    assert (Hlen' : length (timers (snd pr)) = S (length (timers s))).
    { unfold pr. rewrite timers_process_buffered_messages. unfold s_fire, burst_state.
      cbn [timers fmap list_fmap app]. rewrite length_app. simpl. lia. }
    rewrite fmap_cons in Hnodup. apply NoDup_cons in Hnodup as [Hnotin Hnodup].
    assert (Hfresh' : ∀ z, z ∈ a' :: rest →
              already_processed (arrival_id z) (history_of (snd pr) c) = false).
    { intros z Hz. apply already_processed_false. intros e He.
      destruct (flush_history_elements _ c (arrival_id a) s_fire _ e Hb He)
        as [Hold|[->|[_ Hnone]]].
      - unfold s_fire in Hold. rewrite history_of_burst_state in Hold.
        specialize (Hfresh z Hz). rewrite already_processed_false in Hfresh.
        by apply Hfresh.
      - simpl. intros [= Heq]. apply Hnotin. rewrite Heq.
        by apply list_elem_of_fmap_2.
      - by rewrite Hnone. }
    rewrite buffer_message_burst_first; [|done|apply Hfresh'; by left].
    destruct (IH a' (snd pr) Hq' Hapart Hnodup) as (Hseq & Hquiet & Hlen).
    { intros z Hz. apply Hfresh'. by right. }
    { intros z Hz. apply Hend. by destruct rest. }
    cbv zeta in Hseq, Hquiet, Hlen. rewrite Hlen' in Hseq, Hlen.
    split; [|split; [exact Hquiet|rewrite Hlen; simpl; lia]].
    rewrite <- app_assoc. cbn [app fmap list_fmap fst]. rewrite Hseq. done.
Qed.

(** X12. Messages of one chat that arrive more than [MESSAGE_DELAY] = 5
    seconds apart, with pairwise different identifiers none of which is in
    the chat's history, are not merged: started with no timer waiting, and
    followed by 5 seconds of silence, the run executes exactly one callback
    per message, those of the timers started for them in order of arrival,
    and leaves no timer waiting. *)
Theorem separated_arrivals_flush_each (w : nat → external) (chat_id : string) (s : state)
    (first : arrival) (rest : list arrival) (t_end : Q) :
  quiescent s →
  apart MESSAGE_DELAY (first :: rest) →
  NoDup (arrival_id <$> first :: rest) →
  (∀ a, a ∈ first :: rest →
        already_processed (arrival_id a) (history_of s chat_id) = false) →
  (∀ z, last (first :: rest) = Some z → (arrival_time z + MESSAGE_DELAY <= t_end)%Q) →
  let rs := run_until w chat_id (first :: rest) t_end s in
  (fst rs).*1 = seq (length (timers s)) (length (first :: rest))
  ∧ quiescent (snd rs)
  ∧ length (timers (snd rs)) = length (timers s) + length (first :: rest).
Proof.
  intros Hq Hapart Hnodup Hfresh Hend rs. subst rs. unfold run_until.
  cbn [run_arrivals]. rewrite advance_to_idle by by apply quiescent_not_due.
  cbn [fst snd app]. rewrite buffer_message_burst_first; [|done|apply Hfresh; by left].
  apply (separated_tail w chat_id t_end rest first s Hq Hapart Hnodup); [|done].
  intros a Ha. apply Hfresh. by right.
Qed.

Lemma separated_arrivals_flush_each_witness :
  quiescent initial_state
  ∧ apart MESSAGE_DELAY two_separate_arrivals
  ∧ (fst (run_until (λ _, working_external) "19:a" two_separate_arrivals 30
            initial_state)).*1 = [0; 1].
Proof.
  assert (Hq : quiescent initial_state) by apply Forall_nil_2.
  assert (Ha : apart MESSAGE_DELAY two_separate_arrivals).
  { simpl. split; [|exact I]. unfold Qlt; simpl; lia. }
  split; [exact Hq|]. split; [exact Ha|].
  assert (Hn : NoDup (arrival_id <$> two_separate_arrivals)).
  { apply NoDup_cons. split; [|apply NoDup_singleton].
    intros Hin. apply list_elem_of_singleton in Hin. discriminate Hin. }
  assert (Hend : ∀ z, last two_separate_arrivals = Some z →
                      (arrival_time z + MESSAGE_DELAY <= 30)%Q).
  { intros z [= <-]. unfold Qle; simpl; lia. }
  apply (separated_arrivals_flush_each (λ _, working_external) "19:a" initial_state
           (mk_arrival 0 "a" "1") [mk_arrival 20 "b" "2"] 30 Hq Ha Hn
           (λ a _, eq_refl) Hend).
Defined.

Example separate_arrivals_two_answers :
  let rs := run_until (λ _, working_external) "19:a" two_separate_arrivals 30
              initial_state in
  fst rs = [(0, Returned tt); (1, Returned tt)]
  ∧ history_of (snd rs) "19:a"
    = [mk_entry (Some "1") User "a"; mk_entry None Me "ok";
       mk_entry (Some "2") User "b"; mk_entry None Me "ok"].
Proof. vm_compute. repeat split. Qed.

(** ** The poll loop *)

Lemma due_count_none t ts :
  Forall (λ tm, is_due t tm = false) ts → due_count t ts = 0.
Proof.
  unfold due_count. induction ts as [|tm ts IH]; intros Hall; [done|].
  apply Forall_cons in Hall as [Htm Hts].
  rewrite filter_cons_False by (by rewrite Htm). by apply IH.
Qed.

Lemma due_count_app t ts1 ts2 :
  due_count t (ts1 ++ ts2) = due_count t ts1 + due_count t ts2.
Proof. unfold due_count. by rewrite filter_app, length_app. Qed.

(** [advance_to] runs as many callbacks as timers are due. *)
Lemma run_timers_count w t : ∀ fuel s,
  due_count t (timers s) ≤ fuel →
  length (fst (run_timers fuel w t s)) = due_count t (timers s).
Proof.
  induction fuel as [|fuel IH]; intros s Hcount.
  - simpl. lia.
  - simpl. destruct (earliest_due t (timers s) 0 None) as [[h tm]|] eqn:Hnext.
    + cbn [fst snd length].
      destruct (earliest_due_valid t (timers s) (timers s) [] None eq_refl
                  ltac:(discriminate) h tm Hnext) as [Hh Hdue].
      pose proof (due_count_fired t (timers s) h tm Hh Hdue) as Hfired.
      rewrite IH.
      * unfold fire. cbn [snd]. rewrite timers_process_buffered_messages.
        cbn [timers set_clock set_timers]. lia.
      * unfold fire. cbn [snd]. rewrite timers_process_buffered_messages.
        cbn [timers set_clock set_timers]. lia.
    + apply earliest_due_found in Hnext as [_ Hnone].
      by rewrite due_count_none.
Qed.

Lemma advance_to_count w t s :
  length (fst (advance_to w t s)) = due_count t (timers s).
Proof.
  unfold advance_to. cbn [fst]. apply run_timers_count.
  unfold due_count. apply length_filter.
Qed.

Lemma statuses_after_fire w h tm s h' tm' :
  timers (snd (fire w h tm s)) !! h' = Some tm' → status tm' = Waiting →
  timers s !! h' = Some tm'.
Proof.
  destruct (fire_effects w h tm s) as (-> & _).
  rewrite list_lookup_alter. destruct (decide (h = h')) as [<-|Hne]; [|done].
  destruct (timers s !! h) as [tm0|]; [|done]. simpl. by intros [= <-].
Qed.

(** Advancing the clock starts no timer and sets none waiting. *)
Lemma waiting_after_advance w t s h tm :
  timers (snd (advance_to w t s)) !! h = Some tm → status tm = Waiting →
  timers s !! h = Some tm.
Proof.
  unfold advance_to. cbn [snd]. change (timers (set_clock t ?s0)) with (timers s0).
  generalize (length (timers s)). intros fuel. revert s.
  induction fuel as [|fuel IH]; intros s Hh Hw; [done|].
  cbn [run_timers] in Hh.
  destruct (earliest_due t (timers s) 0 None) as [[h0 tm0]|]; [|done].
  cbn [fst snd] in Hh. apply IH in Hh; [|done]. by eapply statuses_after_fire.
Qed.

(** When every waiting timer is due at [t], none is waiting afterwards. *)
Lemma advance_to_settles w t s :
  Forall (λ tm, status tm = Waiting → (deadline tm <= t)%Q) (timers s) →
  quiescent (snd (advance_to w t s)).
Proof.
  intros Hdead. unfold quiescent. apply Forall_lookup. intros h tm Hh Hw.
  pose proof (advance_to_complete w t s) as Hdone.
  rewrite Forall_lookup in Hdone. specialize (Hdone h tm Hh).
  apply (waiting_after_advance w t s h tm Hh) in Hw as Hold.
  rewrite Forall_lookup in Hdead. specialize (Hdead h tm Hold Hw).
  unfold is_due in Hdone. rewrite Hw in Hdone.
  apply Qle_bool_iff in Hdead. congruence.
Qed.

Lemma only_newest_waiting_buffer_message m mid c s :
  only_newest_waiting c s → only_newest_waiting c (snd (buffer_message m mid c s)).
Proof.
  intros Hs.
  destruct (buffer_message_effects m mid c s) as (_ & _ & _ & _ & Hdup & Hfresh).
  destruct (already_processed mid (history_of s c)) eqn:Hproc.
  - destruct (Hdup eq_refl) as (Ht & _ & Htm).
    destruct Hs as [Hq|(ts & tm & Hts & Hall & Hb)].
    + left. unfold quiescent. by rewrite Ht.
    + right. exists ts, tm. rewrite Ht, Htm. done.
  - destruct (Hfresh eq_refl) as (Hb1 & Ht1). right.
    destruct Hs as [Hq|(ts & tm & Hts & Hall & Hb)].
    + exists (timers s), (mk_timer (clock s + MESSAGE_DELAY) c mid Waiting).
      rewrite Hb1. split; [|done]. rewrite Ht1. f_equal.
      unfold timers_after_cancel. destruct (timer _); [by apply cancel_quiescent|done].
    + exists (ts ++ [cancel_timer tm]),
        (mk_timer (clock s + MESSAGE_DELAY) c mid Waiting).
      rewrite Hb1, Ht1. cbn [mbind option_bind timer].
      assert (Hcancel : timers_after_cancel (buffer_or_new s c) (timers s)
                        = ts ++ [cancel_timer tm]).
      { unfold timers_after_cancel, buffer_or_new.
        destruct (message_buffers s !! c) as [b|]; [|done]. simpl in Hb |- *.
        rewrite Hb, Hts. by apply alter_last. }
      rewrite Hcancel. split; [done|]. split.
      * apply Forall_app. split; [done|]. apply Forall_singleton.
        intros Hw. by apply cancel_timer_status in Hw.
      * rewrite Hts, !length_app. simpl. f_equal.
Qed.

Lemma only_newest_waiting_fetch fetched c : ∀ s,
  only_newest_waiting c s →
  only_newest_waiting c (snd (fetch_new_messages fetched c s)).
Proof.
  induction fetched as [|[mid ct] rest IH]; intros s Hs; [done|].
  cbn [fetch_new_messages]. rewrite bind_run.
  destruct (buffer_message_effects ct mid c s) as (Hret & _).
  pose proof (only_newest_waiting_buffer_message ct mid c s Hs) as Hs1.
  destruct (buffer_message ct mid c s) as [r1 s1]. cbn [fst snd] in *. subst r1.
  by apply IH.
Qed.

Lemma quiescent_last_not_waiting s tm :
  quiescent s → last (timers s) = Some tm → status tm ≠ Waiting.
Proof.
  intros Hq Hlast. unfold quiescent in Hq. rewrite Forall_forall in Hq.
  apply Hq. apply last_Some in Hlast as [ts ->].
  apply elem_of_app. right. by apply list_elem_of_singleton.
Qed.

Lemma poll_round w fetched c s :
  quiescent s →
  let s1 := snd (fetch_new_messages fetched c s) in
  let r2 := advance_to w (clock s1 + POLL_INTERVAL) s1 in
  let fresh := filter (λ p, already_processed p.1 (history_of s c) = false) fetched in
  quiescent (snd r2)
  ∧ length (fst r2) = (if decide (fresh = []) then 0 else 1).
Proof.
  intros Hq s1 r2 fresh.
  destruct (fetch_new_messages_effects fetched c s)
    as (_ & Hclock & _ & _ & _ & _ & Hnil & Hlast).
  fold s1 fresh in Hclock, Hnil, Hlast.
  pose proof (only_newest_waiting_fetch fetched c s (or_introl Hq)) as Hnew.
  fold s1 in Hnew.
  assert (Hsoon : (clock s + MESSAGE_DELAY <= clock s1 + POLL_INTERVAL)%Q).
  { rewrite Hclock. unfold MESSAGE_DELAY, POLL_INTERVAL. lra. }
  destruct (decide (fresh = [])) as [Hfr|Hfr].
  - destruct (Hnil Hfr) as [Ht _].
    assert (Hq1 : quiescent s1) by (unfold quiescent; by rewrite Ht).
    subst r2. rewrite advance_to_idle by by apply quiescent_not_due. done.
  - destruct (last fresh) as [p|] eqn:Hp; [|by apply last_None in Hp].
    destruct (Hlast p eq_refl) as [Hl _].
    destruct Hnew as [Hq1|(ts & tm & Hts & Hall & _)].
    { by destruct (quiescent_last_not_waiting s1 _ Hq1 Hl). }
    rewrite Hts, last_snoc in Hl. injection Hl as ->.
    split.
    + apply advance_to_settles. rewrite Hts. apply Forall_app. split.
      * eapply Forall_impl; [exact Hall|]. by intros tm' Hnw Hw.
      * apply Forall_singleton. by intros _.
    + subst r2. rewrite advance_to_count, Hts, due_count_app.
      rewrite (due_count_none _ ts) by by apply quiescent_not_due.
      unfold due_count. rewrite filter_cons_True; [done|].
      unfold is_due. cbn [status deadline]. by apply Qle_bool_iff.
Qed.

(** X13. One round of the poll loop, begun when no timer is waiting: the
    sleep of [POLL_INTERVAL] = 10 seconds outlasts the [MESSAGE_DELAY] of 5,
    so when the round ends no timer is waiting again.  During the round
    exactly one callback runs if at least one fetched message was not in
    the chat's history, and none otherwise - however many messages were
    fetched. *)
Theorem poll_round_runs_one_callback (w : nat → external) (fetched : list (string * string))
    (chat_id : string) (s : state) :
  quiescent s →
  let r := poll_messages w [Some fetched] chat_id s in
  let fresh := filter (λ p, already_processed p.1 (history_of s chat_id) = false) fetched in
  fst (snd r) = StillPolling
  ∧ quiescent (snd (snd r))
  ∧ length (fst r) = (if decide (fresh = []) then 0 else 1).
Proof.
  intros Hq r fresh. subst r. cbn [poll_messages fst snd]. rewrite app_nil_r.
  split; [done|]. by apply poll_round.
Qed.

Lemma poll_round_runs_one_callback_witness :
  quiescent initial_state
  ∧ length (fst (poll_messages (λ _, working_external)
                   [Some [("1", "a"); ("2", "b")]] "19:a" initial_state)) = 1.
Proof.
  assert (Hq : quiescent initial_state) by apply Forall_nil_2.
  split; [exact Hq|].
  destruct (poll_round_runs_one_callback (λ _, working_external)
              [("1", "a"); ("2", "b")] "19:a" initial_state Hq) as (_ & _ & ->).
  reflexivity.
Defined.

(** X14. The poll loop at large, begun when no timer is waiting: after any
    number of rounds - also when one of them ended the loop with the
    exception of a failed request - no timer is waiting, and at most one
    callback has run per answered request.  The loop has ended with an
    exception exactly when one of the requests failed. *)
Theorem poll_messages_settles (w : nat → external)
    (answers : list (option (list (string * string)))) (chat_id : string) (s : state) :
  quiescent s →
  let r := poll_messages w answers chat_id s in
  quiescent (snd (snd r))
  ∧ length (fst r) ≤ length (filter is_Some answers)
  ∧ (fst (snd r) = PollRaised ↔ None ∈ answers).
Proof.
  revert s. induction answers as [|[fetched|] rest IH]; intros s Hq; cbv zeta.
  - cbn [poll_messages fst snd]. split; [done|]. split; [done|].
    split; [done|]. by intros ?%elem_of_nil.
  - cbn [poll_messages fst snd].
    destruct (poll_round w fetched chat_id s Hq) as [Hq2 Hcount]. cbv zeta in Hq2, Hcount.
    destruct (IH _ Hq2) as (IHq & IHlen & IHiff). cbv zeta in IHq, IHlen, IHiff.
    split; [exact IHq|]. split.
    + rewrite length_app, Hcount, filter_cons_True by eauto. cbn [length].
      destruct (decide _); lia.
    + rewrite IHiff, elem_of_cons. split; [by right|]. by intros [?|?].
  - cbn [poll_messages fst snd]. split; [done|]. split; [simpl; lia|].
    split; [intros _; by left|done].
Qed.

Lemma poll_messages_settles_witness :
  quiescent initial_state
  ∧ quiescent (snd (snd (poll_messages (λ _, working_external)
                           [Some [("1", "a"); ("2", "b")]; None; Some []] "19:a"
                           initial_state))).
Proof.
  assert (Hq : quiescent initial_state) by apply Forall_nil_2.
  split; [exact Hq|].
  apply (poll_messages_settles (λ _, working_external)
           [Some [("1", "a"); ("2", "b")]; None; Some []] "19:a" initial_state Hq).
Defined.

(** X15. Nothing catches the exception of a failed request: the round in
    which [get_recent_messages] raises ends the loop.  What was answered
    before it has been processed and what would come after it is never
    fetched, so the state is the one the earlier rounds left. *)
Theorem poll_messages_stops_at_failed_fetch (w : nat → external)
    (before : list (list (string * string)))
    (after : list (option (list (string * string)))) (chat_id : string) (s : state) :
  let done := poll_messages w (Some <$> before) chat_id s in
  fst (snd done) = StillPolling
  ∧ poll_messages w ((Some <$> before) ++ None :: after) chat_id s
    = (fst done, (PollRaised, snd (snd done))).
Proof.
  revert s. induction before as [|fetched before IH]; intros s; cbv zeta.
  - done.
  - cbn [fmap list_fmap app poll_messages fst snd].
    change (list_fmap _ _ Some before) with (Some <$> before).
    destruct (IH (snd (advance_to w
                (clock (snd (fetch_new_messages fetched chat_id s)) + POLL_INTERVAL)
                (snd (fetch_new_messages fetched chat_id s))))) as [Hstill Heq].
    cbv zeta in Hstill, Heq. split; [exact Hstill|]. by rewrite Heq.
Qed.

(** ** The Graph API client *)





Example first_send_asks_for_a_token :
  (TeamsService.send_message granting_network 100 100 "19:a" "hello"
     (TeamsService.init "id" "secret" "tenant")).2
  = [TeamsService.PostToken "https://login.microsoftonline.com/tenant/oauth2/v2.0/token"
       (TeamsService.mk_form "client_credentials" "id" "secret"
          "https://graph.microsoft.com/.default");
     TeamsService.PostMessage "https://graph.microsoft.com/v1.0/chats/19:a/messages"
       [("Authorization", "Bearer tok"); ("Content-Type", "application/json")] "hello"].
Proof. reflexivity. Qed.

(** ** The lines of a conversation *)

Lemma count_newlines_app s1 s2 :
  count_newlines (s1 +:+ s2) = count_newlines s1 + count_newlines s2.
Proof.
  induction s1 as [|a s1 IH]; [done|].
  change (String a s1 +:+ s2) with (String a (s1 +:+ s2)).
  cbn [count_newlines]. rewrite IH. lia.
Qed.

Lemma count_newlines_join (lines : list string) :
  count_newlines (join NL lines)
  = pred (length lines) + sum_list (count_newlines <$> lines).
Proof.
  induction lines as [|x lines IH]; [done|].
  destruct lines as [|y lines].
  - simpl. lia.
  - change (join NL (x :: y :: lines)) with (x +:+ NL +:+ join NL (y :: lines)).
    rewrite !count_newlines_app, IH. simpl. lia.
Qed.

(** X18. The conversation text has one newline between consecutive
    entries and, besides, exactly the newlines of the labels and contents
    themselves.  So a history of n ≥ 1 entries renders as n lines when no
    content and no label contains a newline, and a content with k newlines
    adds k lines that nothing marks as belonging to that entry. *)
Theorem conversation_line_count (messages0 : list entry) (user_name : string) :
  count_newlines (generate_conversation messages0 user_name)
  = pred (length messages0)
    + sum_list ((λ m, (match user_type m with
                       | User => count_newlines user_name
                       | Me => 0
                       end) + count_newlines (content m)) <$> messages0).
Proof.
  unfold generate_conversation. rewrite count_newlines_join, length_map. f_equal.
  rewrite <- list_fmap_compose. f_equal. apply list_fmap_ext. intros i m _.
  unfold compose, format_message. rewrite !count_newlines_app.
  destruct (user_type m); simpl; lia.
Qed.

Example conversation_with_embedded_newline :
  generate_conversation [mk_entry (Some "1") User ("hi" +:+ NL +:+ "Me: sure")] "User"
  = generate_conversation
      [mk_entry (Some "1") User "hi"; mk_entry None Me "sure"] "User".
Proof. reflexivity. Qed.

(** ** A message that arrives while the model is answering *)

(** X19. The poll thread buffers a message while a callback of the same
    chat is blocked in the call of the model, and the callback then runs to
    its end and returns.  Its [del] removes the buffer together with the
    message just appended: histories and buffers end up exactly as if the
    callback had run alone, so the message is in no batch and in no pending
    list.  The timer started for it is left waiting, and when it fires its
    callback finds no buffer and changes nothing. *)
Theorem ingest_while_generating_is_dropped (x x' : external)
    (chat_id message_id0 message message_id1 : string) (s : state) (b : buffer)
    (r choice : string) :
  message_buffers s !! chat_id = Some b →
  already_processed message_id1 (history_of s chat_id) = false →
  message_id1 ≠ message_id0 →
  invoke x
    (generate_conversation
       (append_entry (history_of s chat_id) (user_turn message_id0 (messages b)))
       (lookup_user_name chat_id))
    (lookup_user_name chat_id) = Some r →
  input x send_prompt = Some choice →
  (confirms choice = true → send_message x chat_id r = true) →
  let alone := process_buffered_messages x chat_id message_id0 s in
  let both := run_schedule x chat_id
                [StepFlush; Ingest message message_id1; StepFlush; StepFlush; StepFlush]
                (AtEntry chat_id message_id0) s in
  fst alone = Returned tt
  ∧ fst both = Exited (Returned tt)
  ∧ chat_history (snd both) = chat_history (snd alone)
  ∧ message_buffers (snd both) = message_buffers (snd alone)
  ∧ message_buffers (snd both) !! chat_id = None
  ∧ last (timers (snd both))
    = Some (mk_timer (clock s + MESSAGE_DELAY) chat_id message_id1 Waiting)
  ∧ process_buffered_messages x' chat_id message_id1 (snd both)
    = (Returned tt, snd both).
Proof.
  intros Hb Hfresh Hne Hr Hin Hsend alone both.
  set (h1 := append_entry (history_of s chat_id) (user_turn message_id0 (messages b))) in *.
  set (h2 := append_entry h1 (reply_turn r)).
  assert (Halone : alone = (Returned tt, set_message_buffers (delete chat_id)
                                          (with_history chat_id h2 s))).
  { subst alone. rewrite (process_buffered_messages_run x chat_id message_id0 s b Hb).
    cbv zeta. fold h1. rewrite Hr, Hin. fold h2.
    destruct (confirms choice); [rewrite Hsend by done|]; done. }
  set (s1 := with_history chat_id h1 s).
  assert (Hfresh1 : already_processed message_id1 (history_of s1 chat_id) = false).
  { unfold s1. rewrite history_of_with_history. apply already_processed_false.
    intros e [He| ->]%elem_of_append_entry.
    - rewrite already_processed_false in Hfresh. by apply Hfresh.
    - simpl. intros [= Heq]. by apply Hne. }
  assert (Hrun2 : buffer_message message message_id1 chat_id s1
    = (Returned tt,
       mk_state (<[chat_id := h1]> (chat_history s))
         (<[chat_id := mk_buffer (Some (length (timers s))) (messages b ++ [message])]>
            (message_buffers s))
         (timers_after_cancel b (timers s)
          ++ [mk_timer (clock s + MESSAGE_DELAY) chat_id message_id1 Waiting])
         (clock s))).
  { rewrite buffer_message_run. cbv zeta. rewrite Hfresh1.
    unfold s1 at 1. rewrite history_of_with_history.
    unfold buffer_or_new, s1, with_history, set_chat_history.
    cbn [chat_history message_buffers timers clock]. rewrite Hb. cbn [default from_option id].
    by rewrite insert_insert_eq. }
  set (s2 := mk_state (<[chat_id := h1]> (chat_history s))
               (<[chat_id := mk_buffer (Some (length (timers s))) (messages b ++ [message])]>
                  (message_buffers s))
               (timers_after_cancel b (timers s)
                ++ [mk_timer (clock s + MESSAGE_DELAY) chat_id message_id1 Waiting])
               (clock s)) in *.
  assert (Hh2 : history_of s2 chat_id = h1).
  { unfold history_of, s2. cbn [chat_history]. by rewrite lookup_insert_eq. }
  set (s3 := with_history chat_id h2 s2).
  assert (Hb3 : message_buffers s3 !! chat_id
                = Some (mk_buffer (Some (length (timers s))) (messages b ++ [message]))).
  { unfold s3, s2. rewrite message_buffers_with_history. cbn [message_buffers].
    apply lookup_insert_eq. }
  assert (Hboth : both = (Exited (Returned tt), set_message_buffers (delete chat_id) s3)).
  { subst both.
    rewrite run_schedule_step, (flush_step_entry x chat_id message_id0 s b Hb).
    cbv zeta. fold h1 s1. cbn [fst snd].
    rewrite run_schedule_ingest, Hrun2. cbn [snd].
    rewrite run_schedule_step, flush_step_invoke, Hr. cbn [fst snd].
    rewrite Hh2. fold h2 s3.
    rewrite run_schedule_step. unfold flush_step at 1 2. rewrite Hin.
    destruct (confirms choice).
    - cbn [fst snd]. rewrite run_schedule_step. unfold flush_step.
      rewrite Hsend by done. by rewrite (flush_step_exit chat_id s3 _ Hb3).
    - by rewrite (flush_step_exit chat_id s3 _ Hb3). }
  rewrite Halone, Hboth. cbn [fst snd].
  split; [done|]. split; [done|].
  unfold s3, s2, with_history, set_message_buffers, set_chat_history.
  cbn [chat_history message_buffers timers clock].
  split; [by rewrite insert_insert_eq|].
  split; [by rewrite delete_insert_eq|].
  split; [apply lookup_delete_eq|].
  split; [apply last_snoc|].
  apply process_buffered_messages_idle. cbn [message_buffers]. apply lookup_delete_eq.
Qed.

Lemma ingest_while_generating_is_dropped_witness :
  message_buffers callback_starting !! "19:a" = Some (mk_buffer (Some 0) ["hi"])
  ∧ message_buffers
      (snd (run_schedule working_external "19:a"
              [StepFlush; Ingest "b" "2"; StepFlush; StepFlush; StepFlush]
              (AtEntry "19:a" "1") callback_starting)) !! "19:a" = None.
Proof.
  split; [reflexivity|].
  assert (Hne : "2" ≠ "1") by discriminate.
  apply (ingest_while_generating_is_dropped working_external working_external
           "19:a" "1" "b" "2" callback_starting (mk_buffer (Some 0) ["hi"]) "ok" "y"
           eq_refl eq_refl Hne eq_refl eq_refl (λ _, eq_refl)).
Defined.
